(** * TuneForge: the Song, Playlist and User models

    A shallow embedding of the instance methods of [models/Song.js],
    [models/Playlist.js] and [models/User.js], and the properties of the
    ownership, permission, ordering and history rules they implement.

    Modelling conventions.
    - A Mongoose document is a record; an instance method mutates [this] and
      may throw, so it is a computation in a state-and-exception monad
      ([Method]) whose state is the document.
    - An [ObjectId] is its hexadecimal string, so [toString()] is the
      identity and [===] on the strings is [String.eqb].  A user id that is
      absent ([undefined], as produced by [req.session.user?.id]) is [None].
    - A JavaScript array is a [list]; [indexOf], [splice], [push], [unshift],
      [slice], [find], [filter], [forEach] and [sort] are written out below.
    - [Number] fields that hold counts, order keys and seconds are integers
      ([Z]); the order key [addSong] computes is the double-precision sum
      [Js.plus], which is not the exact one from 2^53 on; [new Date()] is a
      reading [now] of the clock passed in.
    - [save()] runs the schema's pre-save hook and resolves to the document;
      the [Song] collection the playlist hook queries is a list of documents.
      A store that fails to answer, documents with populated references and
      requests that interleave are outside the model: every method runs to
      its end on the document it was called on. *)

From Stdlib Require Import ZArith List String Bool Lia Permutation Sorted.
Import ListNotations.

Local Open Scope string_scope.
Local Open Scope list_scope.
Local Open Scope Z_scope.

(* ===================================================================== *)
(** * Methods: state plus exceptions *)
(* ===================================================================== *)

Inductive Exception : Type :=
| TypeError (msg : string)
| Error (msg : string).

Inductive Completion (A : Type) : Type :=
| Normal (a : A)
| Throw (e : Exception).

Arguments Normal {A} a.
Arguments Throw {A} e.

Definition Method (St A : Type) : Type := St -> Completion A * St.

Definition ret {St A} (a : A) : Method St A := fun s => (Normal a, s).

Definition throw {St A} (e : Exception) : Method St A := fun s => (Throw e, s).

Definition bind {St A B} (m : Method St A) (k : A -> Method St B) : Method St B :=
  fun s =>
    match m s with
    | (Normal a, s') => k a s'
    | (Throw e, s') => (Throw e, s')
    end.

Definition get {St} : Method St St := fun s => (Normal s, s).

Definition modify {St} (f : St -> St) : Method St unit := fun s => (Normal tt, f s).

Declare Scope method_scope.
Delimit Scope method_scope with method.
Notation "x <- m ;; k" := (bind m (fun x => k))
  (at level 61, m at next level, right associativity) : method_scope.
Notation "m ;; k" := (bind m (fun _ => k))
  (at level 61, right associativity) : method_scope.
Local Open Scope method_scope.

(** The document as the call leaves it, and what the call completed with. *)
Definition exec {St A} (m : Method St A) (s : St) : St := snd (m s).
Definition result {St A} (m : Method St A) (s : St) : Completion A := fst (m s).

Definition returns {St A} (m : Method St A) (s : St) : bool :=
  match result m s with Normal _ => true | Throw _ => false end.

(* ===================================================================== *)
(** * JavaScript values and arrays *)
(* ===================================================================== *)

Definition ObjectId : Type := string.
Definition Date : Type := Z.

(** What reading [toString] of [undefined] throws. *)
Definition undefined_toString : Exception :=
  TypeError "Cannot read properties of undefined (reading 'toString')".

(** [v.toString()] for an id that may be [undefined]. *)
Definition toString {St} (v : option ObjectId) : Method St string :=
  match v with
  | Some s => ret s
  | None => throw undefined_toString
  end.

(** The values the permission methods return. *)
Inductive JsValue : Type :=
| JUndefined
| JBool (b : bool).

Definition ToBoolean (v : JsValue) : bool :=
  match v with
  | JUndefined => false
  | JBool b => b
  end.

Module Js.

Fixpoint indexOf_from (l : list ObjectId) (x : ObjectId) (i : Z) : Z :=
  match l with
  | [] => -1
  | y :: r => if String.eqb y x then i else indexOf_from r x (i + 1)
  end.

(** [l.indexOf(x)]: first index holding [x], or -1. *)
Definition indexOf (l : list ObjectId) (x : ObjectId) : Z := indexOf_from l x 0.

(** [l.splice(start, deleteCount)] for [start >= 0]: the array left behind. *)
Definition splice {A} (start deleteCount : Z) (l : list A) : list A :=
  firstn (Z.to_nat start) l ++ skipn (Z.to_nat (start + deleteCount)) l.

Definition push {A} (l : list A) (x : A) : list A := l ++ [x].

Definition unshift {A} (x : A) (l : list A) : list A := x :: l.

(** [l.slice(0, n)]. *)
Definition slice0 {A} (n : Z) (l : list A) : list A := firstn (Z.to_nat n) l.

Definition length {A} (l : list A) : Z := Z.of_nat (List.length l).

(** [l.find(f)] for a callback that may throw. *)
Fixpoint findM {St A} (f : A -> Method St bool) (l : list A) : Method St (option A) :=
  match l with
  | [] => ret None
  | x :: r => b <- f x ;; if b then ret (Some x) else findM f r
  end.

(** [const e = l.find(f); if (e) { e.field = ... }]: the found element is
    the array's own element, so the assignment shows in the array. *)
Fixpoint update_first {A} (f : A -> bool) (g : A -> A) (l : list A) : list A :=
  match l with
  | [] => []
  | x :: r => if f x then g x :: r else x :: update_first f g r
  end.

Fixpoint forEach {St A} (f : A -> Method St unit) (l : list A) : Method St unit :=
  match l with
  | [] => ret tt
  | x :: r => f x ;; forEach f r
  end.

(** [l.sort(cmp)]: the sort is stable; [cmp a b <= 0] keeps [a] first. *)
Fixpoint sort_insert {A} (cmp : A -> A -> Z) (a : A) (l : list A) : list A :=
  match l with
  | [] => [a]
  | b :: r => if cmp a b <=? 0 then a :: b :: r else b :: sort_insert cmp a r
  end.

Fixpoint sort {A} (cmp : A -> A -> Z) (l : list A) : list A :=
  match l with
  | [] => []
  | a :: r => sort_insert cmp a (sort cmp r)
  end.

(** [Math.max(...l)] for a non-empty [l = x :: r]. *)
Definition Math_max (x : Z) (r : list Z) : Z := fold_left Z.max r x.

(** What [l.splice(l.indexOf(x), 1)] leaves when [x] is in [l]
    (see [splice_indexOf]). *)
Fixpoint remove_first (x : ObjectId) (l : list ObjectId) : list ObjectId :=
  match l with
  | [] => []
  | y :: r => if String.eqb y x then r else y :: remove_first x r
  end.

(** The double nearest to an integer, ties to the even significand: 53
    bits are kept, and [u] is the unit of the last of them.  (No integer of
    the model is beyond the largest double.) *)
Definition round_to_double (z : Z) : Z :=
  let a := Z.abs z in
  let e := Z.log2 a - 52 in
  if e <=? 0 then z
  else
    let u := 2 ^ e in
    let q := a / u in
    let r := a mod u in
    let q' := if 2 * r <? u then q
              else if u <? 2 * r then q + 1
              else if Z.even q then q else q + 1 in
    Z.sgn z * (q' * u).

(** The integers a [Number] can hold: those a double represents. *)
Definition is_double (z : Z) : bool := round_to_double z =? z.

(** [a + b] on [Number]s that hold integers: the exact sum, rounded to the
    nearest double.  An integer that no double represents is not a [Number];
    its sum is left exact. *)
Definition plus (a b : Z) : Z :=
  if is_double a && is_double b then round_to_double (a + b) else a + b.

(** [Number.MAX_SAFE_INTEGER]. *)
Definition MAX_SAFE_INTEGER : Z := 2 ^ 53 - 1.

End Js.

(* ===================================================================== *)
(** * models/Song.js *)
(* ===================================================================== *)

Module Song.

Record Doc : Type := mkDoc {
  _id : ObjectId;
  duration : Z;
  playCount : Z;
  likes : list ObjectId;
  dislikes : list ObjectId
}.

Definition set_likes (l : list ObjectId) (s : Doc) : Doc :=
  mkDoc (_id s) (duration s) (playCount s) l (dislikes s).

Definition set_dislikes (l : list ObjectId) (s : Doc) : Doc :=
  mkDoc (_id s) (duration s) (playCount s) (likes s) l.

Definition set_playCount (n : Z) (s : Doc) : Doc :=
  mkDoc (_id s) (duration s) n (likes s) (dislikes s).

(** The schema has no pre-save hook. *)
Definition save : Method Doc Doc := get.

Definition incrementPlayCount : Method Doc Doc :=
  modify (fun s => set_playCount (playCount s + 1) s) ;;
  save.

Definition toggleLike (userId : ObjectId) : Method Doc Doc :=
  this <- get ;;
  let likeIndex := Js.indexOf (likes this) userId in
  let dislikeIndex := Js.indexOf (dislikes this) userId in
  (if likeIndex >? -1 then
     modify (fun s => set_likes (Js.splice likeIndex 1 (likes s)) s)
   else
     modify (fun s => set_likes (Js.push (likes s) userId) s) ;;
     if dislikeIndex >? -1 then
       modify (fun s => set_dislikes (Js.splice dislikeIndex 1 (dislikes s)) s)
     else ret tt) ;;
  save.

Definition toggleDislike (userId : ObjectId) : Method Doc Doc :=
  this <- get ;;
  let likeIndex := Js.indexOf (likes this) userId in
  let dislikeIndex := Js.indexOf (dislikes this) userId in
  (if dislikeIndex >? -1 then
     modify (fun s => set_dislikes (Js.splice dislikeIndex 1 (dislikes s)) s)
   else
     modify (fun s => set_dislikes (Js.push (dislikes s) userId) s) ;;
     if likeIndex >? -1 then
       modify (fun s => set_likes (Js.splice likeIndex 1 (likes s)) s)
     else ret tt) ;;
  save.

(** [Song.find({ _id: { $in: ids } })] over the collection. *)
Definition find_in (collection : list Doc) (ids : list ObjectId) : list Doc :=
  filter (fun d => existsb (String.eqb (_id d)) ids) collection.

(** A request of the like/dislike routes. *)
Inductive Toggle : Type :=
| Like (userId : ObjectId)
| Dislike (userId : ObjectId).

Definition toggle (t : Toggle) : Method Doc Doc :=
  match t with
  | Like u => toggleLike u
  | Dislike u => toggleDislike u
  end.

(** The document after a sequence of toggles, one after the other. *)
Definition toggles (ts : list Toggle) (s : Doc) : Doc :=
  fold_left (fun d t => exec (toggle t) d) ts s.

(** No user id is in both arrays. *)
Definition exclusive (s : Doc) : Prop :=
  forall u, ~ (In u (likes s) /\ In u (dislikes s)).

(** Each array lists a user id at most once. *)
Definition set_like (s : Doc) : Prop :=
  NoDup (likes s) /\ NoDup (dislikes s).

Definition liked (u : ObjectId) (s : Doc) : bool :=
  existsb (String.eqb u) (likes s).

(** Sample documents.  Nothing in the schema keeps an id from being listed
    twice: two requests of one user that both read the array before either
    saves both push. *)
Definition sample : Doc := mkDoc "s1" 180 0 ["u1"] ["u2"].
Definition disliked_twice : Doc := mkDoc "s1" 180 0 [] ["u1"; "u1"].
Definition liked_twice : Doc := mkDoc "s1" 180 0 ["u1"; "u1"] [].

(** The virtuals [likeCount] and [dislikeCount]. *)
Definition likeCount (s : Doc) : Z := Js.length (likes s).

Definition dislikeCount (s : Doc) : Z := Js.length (dislikes s).

Definition disliked (u : ObjectId) (s : Doc) : bool :=
  existsb (String.eqb u) (dislikes s).

(** [Song.findById(id)] over the collection. *)
Definition findById (collection : list Doc) (id : ObjectId) : option Doc :=
  find (fun d => String.eqb (_id d) id) collection.

End Song.

(* ===================================================================== *)
(** * models/Playlist.js *)
(* ===================================================================== *)

Module Playlist.

Inductive Role : Type := editor | viewer.

Definition Role_eqb (a b : Role) : bool :=
  match a, b with
  | editor, editor | viewer, viewer => true
  | _, _ => false
  end.

Record Collaborator : Type := mkCollaborator {
  user : ObjectId;
  role : Role;
  collaboratorAddedAt : Date
}.

Record Entry : Type := mkEntry {
  song : ObjectId;
  addedAt : Date;
  addedBy : ObjectId;
  order : Z
}.

Record Doc : Type := mkDoc {
  isPublic : bool;
  isCollaborative : bool;
  createdBy : ObjectId;
  collaborators : list Collaborator;
  songs : list Entry;
  duration : Z
}.

Definition set_role (r : Role) (c : Collaborator) : Collaborator :=
  mkCollaborator (user c) r (collaboratorAddedAt c).

Definition set_order (n : Z) (e : Entry) : Entry :=
  mkEntry (song e) (addedAt e) (addedBy e) n.

Definition set_collaborators (l : list Collaborator) (p : Doc) : Doc :=
  mkDoc (isPublic p) (isCollaborative p) (createdBy p) l (songs p) (duration p).

Definition set_songs (l : list Entry) (p : Doc) : Doc :=
  mkDoc (isPublic p) (isCollaborative p) (createdBy p) (collaborators p) l (duration p).

Definition set_duration (d : Z) (p : Doc) : Doc :=
  mkDoc (isPublic p) (isCollaborative p) (createdBy p) (collaborators p) (songs p) d.

(** [songs.reduce((total, song) => total + song.duration, 0)]. *)
Definition total_duration (found : list Song.Doc) : Z :=
  fold_left (fun total s => total + Song.duration s) found 0.

(** The pre-save hook; [db] is the song collection that
    [mongoose.model('Song')] queries. *)
Definition preSave (db : list Song.Doc) : Method Doc unit :=
  this <- get ;;
  if Js.length (songs this) >? 0 then
    let songIds := map song (songs this) in
    let found := Song.find_in db songIds in
    modify (set_duration (total_duration found))
  else ret tt.

Definition save (db : list Song.Doc) : Method Doc Doc :=
  preSave db ;; get.

Definition is_song (songId : ObjectId) (s : Entry) : bool :=
  String.eqb (song s) songId.

Definition is_user (userId : ObjectId) (c : Collaborator) : bool :=
  String.eqb (user c) userId.

(** [this.songs.length > 0 ? Math.max(...this.songs.map(s => s.order)) : 0];
    the spread of an empty array is never evaluated. *)
Definition maxOrder (l : list Entry) : Z :=
  match map order l with
  | [] => 0
  | o :: os => Js.Math_max o os
  end.

Definition addSong (db : list Song.Doc) (now : Date) (songId userId : ObjectId)
  : Method Doc Doc :=
  this <- get ;;
  match find (is_song songId) (songs this) with
  | Some _ => throw (Error "Song already exists in playlist")
  | None =>
      let maxOrder := maxOrder (songs this) in
      modify (fun p =>
        set_songs (Js.push (songs p) (mkEntry songId now userId (Js.plus maxOrder 1))) p) ;;
      save db
  end.

Definition removeSong (db : list Song.Doc) (songId : ObjectId) : Method Doc Doc :=
  modify (fun p => set_songs (filter (fun s => negb (is_song songId s)) (songs p)) p) ;;
  save db.

Record Assignment : Type := mkAssignment {
  songId : ObjectId;
  newOrder : Z
}.

Definition reorder_one (a : Assignment) : Method Doc unit :=
  this <- get ;;
  match find (is_song (songId a)) (songs this) with
  | Some _ =>
      modify (fun p =>
        set_songs (Js.update_first (is_song (songId a)) (set_order (newOrder a)) (songs p)) p)
  | None => ret tt
  end.

Definition by_order (a b : Entry) : Z := order a - order b.

Definition reorderSongs (db : list Song.Doc) (songOrders : list Assignment)
  : Method Doc Doc :=
  Js.forEach reorder_one songOrders ;;
  modify (fun p => set_songs (Js.sort by_order (songs p)) p) ;;
  save db.

(** The parameter default [role = 'editor']. *)
Definition role_or_default (r : option Role) : Role :=
  match r with Some r => r | None => editor end.

Definition addCollaborator (db : list Song.Doc) (now : Date)
                           (userId : ObjectId) (role : option Role) : Method Doc Doc :=
  let role := role_or_default role in
  this <- get ;;
  match find (is_user userId) (collaborators this) with
  | Some _ =>
      modify (fun p =>
        set_collaborators (Js.update_first (is_user userId) (set_role role) (collaborators p)) p)
  | None =>
      modify (fun p =>
        set_collaborators (Js.push (collaborators p) (mkCollaborator userId role now)) p)
  end ;;
  save db.

Definition removeCollaborator (db : list Song.Doc) (userId : ObjectId) : Method Doc Doc :=
  modify (fun p =>
    set_collaborators (filter (fun c => negb (is_user userId c)) (collaborators p)) p) ;;
  save db.

(** [c => c.user.toString() === userId.toString()]. *)
Definition same_user (userId : option ObjectId) (c : Collaborator) : Method Doc bool :=
  uid <- toString userId ;;
  ret (String.eqb (user c) uid).

Definition canEdit (userId : option ObjectId) : Method Doc JsValue :=
  this <- get ;;
  uid <- toString userId ;;
  if String.eqb (createdBy this) uid then ret (JBool true) else
  if negb (isCollaborative this) then ret (JBool false) else
  collaborator <- Js.findM (same_user userId) (collaborators this) ;;
  ret (match collaborator with
       | None => JUndefined
       | Some c => JBool (Role_eqb (role c) editor)
       end).

Definition canView (userId : option ObjectId) : Method Doc JsValue :=
  this <- get ;;
  if isPublic this then ret (JBool true) else
  uid <- toString userId ;;
  if String.eqb (createdBy this) uid then ret (JBool true) else
  collaborator <- Js.findM (same_user userId) (collaborators this) ;;
  ret (match collaborator with
       | None => JBool false
       | Some _ => JBool true
       end).

(** The value [canEdit] returns for a real user id (see [canEdit_runs]). *)
Definition canEdit_value (u : ObjectId) (p : Doc) : JsValue :=
  if String.eqb (createdBy p) u then JBool true
  else if negb (isCollaborative p) then JBool false
  else match find (is_user u) (collaborators p) with
       | None => JUndefined
       | Some c => JBool (Role_eqb (role c) editor)
       end.

(** A membership request: the add and remove routes. *)
Inductive Change : Type :=
| Add (now : Date) (songId userId : ObjectId)
| Remove (songId : ObjectId).

Definition change (db : list Song.Doc) (c : Change) : Method Doc Doc :=
  match c with
  | Add now s u => addSong db now s u
  | Remove s => removeSong db s
  end.

Definition changes (db : list Song.Doc) (cs : list Change) (p : Doc) : Doc :=
  fold_left (fun d c => exec (change db c) d) cs p.

(** The sum of the durations of the songs of the collection that are
    members of the playlist. *)
Definition member_durations (db : list Song.Doc) (p : Doc) : Z :=
  total_duration (Song.find_in db (map song (songs p))).

(** The document [save()] resolves to (see [save_runs]). *)
Definition saved (db : list Song.Doc) (p : Doc) : Doc :=
  if Js.length (songs p) >? 0 then set_duration (member_durations db p) p else p.

Definition is_member (songId : ObjectId) (p : Doc) : bool :=
  existsb (is_song songId) (songs p).

Definition is_collaborator (userId : ObjectId) (p : Doc) : bool :=
  existsb (is_user userId) (collaborators p).

(** What the assignments ask for a song: the last one given for it. *)
Fixpoint assigned (songOrders : list Assignment) (s : ObjectId) : option Z :=
  match songOrders with
  | [] => None
  | a :: r =>
      match assigned r s with
      | Some n => Some n
      | None => if String.eqb (songId a) s then Some (newOrder a) else None
      end
  end.

(** The membership list once the [forEach] of [reorderSongs] is through. *)
Definition applied (songOrders : list Assignment) (l : list Entry) : list Entry :=
  fold_left
    (fun l a => Js.update_first (is_song (songId a)) (set_order (newOrder a)) l)
    songOrders l.

(** One assignment, applied to an entry. *)
Definition assign_one (a : Assignment) (e : Entry) : Entry :=
  if is_song (songId a) e then set_order (newOrder a) e else e.

(** An entry with the order key the assignments ask for its song, if any. *)
Definition reordered (songOrders : list Assignment) (e : Entry) : Entry :=
  match assigned songOrders (song e) with
  | Some n => set_order n e
  | None => e
  end.

Definition ascending (a b : Entry) : Prop := order a <= order b.

(** The membership invariant: no song is listed twice. *)
Definition distinct (p : Doc) : Prop := NoDup (map song (songs p)).

(** Sample data: one song in the collection, a new playlist of user [u1],
    the same playlist holding that song, and the three-song playlist
    [S1:1, S2:2, S3:3]. *)
Definition one_song_db : list Song.Doc := [Song.mkDoc "s1" 180 0 [] []].

Definition fresh : Doc := mkDoc true false "u1" [] [] 0.

Definition private_fresh : Doc := mkDoc false false "u1" [] [] 0.

Definition one_song : Doc :=
  mkDoc true false "u1" [] [mkEntry "s1" 1000 "u1" 1] 180.

(** A playlist whose one order key is 2^53, as [reorderSongs] can set it. *)
Definition at_limit : Doc :=
  mkDoc true false "u1" [] [mkEntry "s1" 1000 "u1" 9007199254740992] 180.

(** A playlist that lists the song [S1] twice. *)
Definition listed_twice : Doc :=
  mkDoc true false "u1" []
    [mkEntry "S1" 1000 "u1" 1; mkEntry "S2" 1001 "u1" 2; mkEntry "S1" 1002 "u1" 3] 0.

Definition three_songs : Doc :=
  mkDoc true false "u1" []
    [mkEntry "S1" 1000 "u1" 1; mkEntry "S2" 1001 "u1" 2; mkEntry "S3" 1002 "u1" 3] 0.

Definition swap_ends : list Assignment := [mkAssignment "S3" 1; mkAssignment "S1" 3].

Definition shared : Doc :=
  mkDoc true true "u1"
    [mkCollaborator "u2" viewer 1000; mkCollaborator "u3" editor 1001] [] 0.

(** The virtual [songCount]. *)
Definition songCount (p : Doc) : Z := Js.length (songs p).

(** A request that edits the membership: add, remove or reorder. *)
Inductive Edit : Type :=
| Membership (c : Change)
| Reorder (songOrders : list Assignment).

Definition edit (db : list Song.Doc) (e : Edit) : Method Doc Doc :=
  match e with
  | Membership c => change db c
  | Reorder songOrders => reorderSongs db songOrders
  end.

Definition edits (db : list Song.Doc) (es : list Edit) (p : Doc) : Doc :=
  fold_left (fun d e => exec (edit db e) d) es p.


(** A request that edits the collaborators. *)
Inductive Sharing : Type :=
| Share (now : Date) (userId : ObjectId) (role : option Role)
| Unshare (userId : ObjectId).

Definition sharing (db : list Song.Doc) (c : Sharing) : Method Doc Doc :=
  match c with
  | Share now u r => addCollaborator db now u r
  | Unshare u => removeCollaborator db u
  end.

Definition sharings (db : list Song.Doc) (cs : list Sharing) (p : Doc) : Doc :=
  fold_left (fun d c => exec (sharing db c) d) cs p.

(** No user has two collaborator entries. *)
Definition one_entry_each (p : Doc) : Prop := NoDup (map user (collaborators p)).

(** Whether the value [canEdit] returns for a real user id is truthy. *)
Definition may_edit (u : ObjectId) (p : Doc) : bool := ToBoolean (canEdit_value u p).

(** The value [canView] returns for a real user id (see [canView_runs]). *)
Definition canView_value (u : ObjectId) (p : Doc) : bool :=
  isPublic p || String.eqb (createdBy p) u || is_collaborator u p.

(** The whole document: [core] holds the fields above, the others are the
    ones the like, follow and play methods use. *)
Record Full : Type := mkFull {
  core : Doc;
  playCount : Z;
  likes : list ObjectId;
  followers : list ObjectId;
  lastPlayed : option Date
}.

Definition set_core (c : Doc) (f : Full) : Full :=
  mkFull c (playCount f) (likes f) (followers f) (lastPlayed f).

Definition set_playCount (n : Z) (f : Full) : Full :=
  mkFull (core f) n (likes f) (followers f) (lastPlayed f).

Definition set_likes (l : list ObjectId) (f : Full) : Full :=
  mkFull (core f) (playCount f) l (followers f) (lastPlayed f).


Definition set_lastPlayed (d : option Date) (f : Full) : Full :=
  mkFull (core f) (playCount f) (likes f) (followers f) d.

(** A method that reads and writes the [core] fields only, on the whole
    document. *)
Definition on_core {A} (m : Method Doc A) : Method Full A :=
  fun f => let '(r, c) := m (core f) in (r, set_core c f).

Definition saveFull (db : list Song.Doc) : Method Full Full :=
  on_core (preSave db) ;; get.

(** The virtuals [likeCount] and [followerCount]. *)
Definition likeCount (f : Full) : Z := Js.length (likes f).


Definition incrementPlayCount (db : list Song.Doc) (now : Date) : Method Full Full :=
  modify (fun f => set_playCount (playCount f + 1) f) ;;
  modify (set_lastPlayed (Some now)) ;;
  saveFull db.

Definition toggleLike (db : list Song.Doc) (userId : ObjectId) : Method Full Full :=
  this <- get ;;
  let likeIndex := Js.indexOf (likes this) userId in
  (if likeIndex >? -1 then
     modify (fun f => set_likes (Js.splice likeIndex 1 (likes f)) f)
   else
     modify (fun f => set_likes (Js.push (likes f) userId) f)) ;;
  saveFull db.




(** Sample data: the shared playlist with one like, made private. *)
Definition private_shared : Doc :=
  mkDoc false true "u1"
    [mkCollaborator "u2" viewer 1000; mkCollaborator "u3" editor 1001] [] 0.


End Playlist.

(* ===================================================================== *)
(** * models/User.js *)
(* ===================================================================== *)

Module User.

Record HistoryEntry : Type := mkHistoryEntry {
  song : ObjectId;
  playedAt : Date;
  duration : Z
}.

Record Doc : Type := mkDoc {
  username : string;
  listeningHistory : list HistoryEntry
}.

Definition set_listeningHistory (h : list HistoryEntry) (u : Doc) : Doc :=
  mkDoc (username u) h.

(** The pre-save hook only rehashes a modified password. *)
Definition save : Method Doc Doc := get.

Definition addToHistory (now : Date) (songId : ObjectId) (duration : Z) : Method Doc Doc :=
  modify (fun u =>
    set_listeningHistory
      (Js.unshift (mkHistoryEntry songId now duration) (listeningHistory u)) u) ;;
  this <- get ;;
  (if Js.length (listeningHistory this) >? 100 then
     modify (set_listeningHistory (Js.slice0 100 (listeningHistory this)))
   else ret tt) ;;
  save.

(** One play: the clock reading, the song and the seconds played. *)
Definition Play : Type := (Date * ObjectId * Z)%type.

Definition plays (ps : list Play) (u : Doc) : Doc :=
  fold_left (fun d '(now, songId, duration) => exec (addToHistory now songId duration) d) ps u.

Definition entry_of (p : Play) : HistoryEntry :=
  let '(now, songId, duration) := p in mkHistoryEntry songId now duration.

(** Sample data: a new user, and 105 plays at clock readings 0 .. 104. *)
Definition newcomer : Doc := mkDoc "ann" [].

Definition first_104 : list Play :=
  map (fun n => (Z.of_nat n, "s1", 180)) (seq 0 104).

Definition play_105 : Play := (104, "s2", 200).

(** The subscription, role and badges of the user document. *)
Inductive Plan : Type := free | premium | pro.

Definition Plan_eqb (a b : Plan) : bool :=
  match a, b with
  | free, free | premium, premium | pro, pro => true
  | _, _ => false
  end.

Record Subscription : Type := mkSubscription {
  type : Plan;
  isActive : bool
}.

Inductive Role : Type := user | moderator | admin.

Definition Role_eqb (a b : Role) : bool :=
  match a, b with
  | user, user | moderator, moderator | admin, admin => true
  | _, _ => false
  end.

Record Badge : Type := mkBadge {
  name : string;
  description : string;
  earnedDate : Date;
  icon : string
}.

(** The whole document: [doc] holds the fields above. *)
Record Account : Type := mkAccount {
  doc : Doc;
  subscription : Subscription;
  role : Role;
  badges : list Badge
}.

Definition set_badges (l : list Badge) (a : Account) : Account :=
  mkAccount (doc a) (subscription a) (role a) l.

Definition saveAccount : Method Account Account := get.

Definition hasPremiumAccess (a : Account) : bool :=
  negb (Plan_eqb (type (subscription a)) free) && isActive (subscription a).

Definition is_badge (badgeName : string) (badge : Badge) : bool :=
  String.eqb (name badge) badgeName.

Definition addBadge (now : Date) (badgeName description icon : string)
  : Method Account Account :=
  this <- get ;;
  match find (is_badge badgeName) (badges this) with
  | None =>
      modify (fun a =>
        set_badges (Js.push (badges a) (mkBadge badgeName description now icon)) a) ;;
      saveAccount
  | Some _ => get
  end.

Definition has_badge (badgeName : string) (a : Account) : bool :=
  existsb (is_badge badgeName) (badges a).

(** Sample data: a paying user with one badge. *)
Definition subscriber : Account :=
  mkAccount newcomer (mkSubscription premium true) user
    [mkBadge "Early Bird" "Joined in the first month" 10 "bird.png"].

End User.

(* ===================================================================== *)
(** * The authentication middleware ([../middleware/auth]) *)
(* ===================================================================== *)

Module Auth.

(** What the login and register routes put in [req.session.user]. *)
Record SessionUser : Type := mkSessionUser {
  id : ObjectId;
  role : User.Role;
  subscription : option User.Subscription
}.

Record Session : Type := mkSession {
  user : option SessionUser
}.

Record Request : Type := mkRequest {
  session : option Session
}.

(** [next()], or [req.flash('error', ...)] (if any) and [res.redirect(url)]. *)
Inductive Outcome : Type :=
| Next
| Redirect (flash : option string) (url : string).

(** [req.session && req.session.user]. *)
Definition sessionUser (req : Request) : option SessionUser :=
  match session req with
  | Some s => user s
  | None => None
  end.

Definition requireAuth (req : Request) : Outcome :=
  match sessionUser req with
  | Some _ => Next
  | None => Redirect (Some "Please log in to access this page") "/auth/login"
  end.

Definition requireAdmin (req : Request) : Outcome :=
  match sessionUser req with
  | Some u =>
      if User.Role_eqb (role u) User.admin then Next
      else Redirect (Some "Admin access required") "/"
  | None => Redirect (Some "Admin access required") "/"
  end.

(** [user.subscription && user.subscription.type !== 'free' &&
    user.subscription.isActive]. *)
Definition premium_value (u : SessionUser) : JsValue :=
  match subscription u with
  | None => JUndefined
  | Some sub =>
      if negb (User.Plan_eqb (User.type sub) User.free)
      then JBool (User.isActive sub)
      else JBool false
  end.

Definition requirePremium (req : Request) : Outcome :=
  match sessionUser req with
  | Some u =>
      if ToBoolean (premium_value u) then Next
      else Redirect (Some "Premium subscription required for this feature") "/subscription"
  | None => Redirect (Some "Please log in to access this page") "/auth/login"
  end.

Definition requireGuest (req : Request) : Outcome :=
  match sessionUser req with
  | Some _ => Redirect None "/dashboard"
  | None => Next
  end.

(** The value [checkPremium] leaves in [res.locals.isPremium]. *)
Definition checkPremium (req : Request) : JsValue :=
  match sessionUser req with
  | Some u => premium_value u
  | None => JBool false
  end.

(** The value [checkAdmin] leaves in [res.locals.isAdmin]. *)
Definition checkAdmin (req : Request) : bool :=
  match sessionUser req with
  | Some u => User.Role_eqb (role u) User.admin
  | None => false
  end.

Definition passes (o : Outcome) : bool :=
  match o with
  | Next => true
  | Redirect _ _ => false
  end.

(** The session the login route writes for an account. *)
Definition login (userId : ObjectId) (a : User.Account) : Request :=
  mkRequest (Some (mkSession (Some
    (mkSessionUser userId (User.role a) (Some (User.subscription a)))))).

(** A request of a visitor who is not logged in. *)
Definition anonymous : Request := mkRequest (Some (mkSession None)).

End Auth.

(* ===================================================================== *)
(** * The playlist and song routers: the handlers that call the methods
      above *)
(* ===================================================================== *)

Module Routes.

(** [res.status(s).json({ success, error or message })], or
    [res.sendFile(path)]. *)
Inductive Response : Type :=
| Json (status : Z) (success : bool) (text : string)
| SendFile (filePath : string).

Definition message (e : Exception) : string :=
  match e with
  | TypeError msg => msg
  | Error msg => msg
  end.

(** [s || d] on strings. *)
Definition or_else (s d : string) : string :=
  if String.eqb s "" then d else s.

(** [try { m } catch (error) { h(error) }]. *)
Definition try_catch {St A} (m : Method St A) (h : Exception -> Method St A) : Method St A :=
  fun s =>
    match m s with
    | (Normal a, s') => (Normal a, s')
    | (Throw e, s') => h e s'
    end.

(** What a handler answers with. *)
Definition answer {St} (h : Method St Response) (s : St) : Response :=
  match result h s with
  | Normal r => r
  | Throw e => Json 500 false (message e)
  end.

(** [POST /playlists/:id/songs], once [requireAuth] has passed and the
    playlist was found; [userId] is [req.session.user.id]. *)
Definition postSong (db : list Song.Doc) (now : Date) (userId songId : ObjectId)
  : Method Playlist.Doc Response :=
  try_catch
    (allowed <- Playlist.canEdit (Some userId) ;;
     if negb (ToBoolean allowed) then
       ret (Json 403 false "You do not have permission to edit this playlist")
     else
       match Song.findById db songId with
       | None => ret (Json 404 false "Song not found")
       | Some _ =>
           Playlist.addSong db now songId userId ;;
           ret (Json 200 true "Song added to playlist successfully")
       end)
    (fun error =>
       ret (Json 500 false (or_else (message error) "Error adding song to playlist"))).

(** [DELETE /playlists/:id/songs/:songId], likewise. *)
Definition deleteSong (db : list Song.Doc) (userId songId : ObjectId)
  : Method Playlist.Doc Response :=
  try_catch
    (allowed <- Playlist.canEdit (Some userId) ;;
     if negb (ToBoolean allowed) then
       ret (Json 403 false "You do not have permission to edit this playlist")
     else
       Playlist.removeSong db songId ;;
       ret (Json 200 true "Song removed from playlist successfully"))
    (fun _ => ret (Json 500 false "Error removing song from playlist")).

(** [POST /playlists/:id/play], once the playlist was found; [userId] is
    [req.session.user?.id]. *)
Definition postPlay (db : list Song.Doc) (now : Date) (userId : option ObjectId)
  : Method Playlist.Full Response :=
  try_catch
    (allowed <- Playlist.on_core (Playlist.canView userId) ;;
     if negb (ToBoolean allowed) then
       ret (Json 403 false "You do not have permission to play this playlist")
     else
       Playlist.incrementPlayCount db now ;;
       ret (Json 200 true "Playlist started"))
    (fun _ => ret (Json 500 false "Error playing playlist")).

(** The song document with the fields the stream route reads. *)
Record Track : Type := mkTrack {
  doc : Song.Doc;
  isPremium : bool;
  filePath : string
}.

Definition set_doc (d : Song.Doc) (t : Track) : Track :=
  mkTrack d (isPremium t) (filePath t).

Section Stream.

(** Node's [path.join] and the directory of the router's file. *)
Variable path_join : list string -> string.
Variable __dirname : string.

(** [GET /songs/:id/stream], once the song was found.  The state is the
    song and the user document that [User.findById(req.session.user.id)]
    gives, if any; [checkPremium] has run before, so [res.locals.isPremium]
    is its value. *)
Definition stream (now : Date) (req : Auth.Request)
  : Method (Track * option User.Doc) Response :=
  try_catch
    (this <- get ;;
     if isPremium (fst this) && negb (ToBoolean (Auth.checkPremium req)) then
       ret (Json 403 false "Premium subscription required")
     else
       modify (fun st =>
         (set_doc (exec Song.incrementPlayCount (doc (fst st))) (fst st), snd st)) ;;
       match Auth.session req with
       | None => throw (TypeError "Cannot read properties of undefined (reading 'user')")
       | Some s =>
           match Auth.user s with
           | None => ret tt
           | Some _ =>
               st <- get ;;
               match snd st with
               | None => ret tt
               | Some user =>
                   let song := doc (fst st) in
                   modify (fun st =>
                     (fst st,
                      Some (exec (User.addToHistory now (Song._id song) (Song.duration song))
                                 user)))
               end
           end
       end ;;
       st <- get ;;
       let filePath := path_join [__dirname; ".."; filePath (fst st)] in
       ret (SendFile filePath))
    (fun _ => ret (Json 500 false "Error streaming song")).

End Stream.

(** The song and the user document a served stream leaves (see
    [stream_runs]). *)
Definition streamed (now : Date) (s : Auth.Session) (t : Track) (u : option User.Doc)
  : Track * option User.Doc :=
  (set_doc (exec Song.incrementPlayCount (doc t)) t,
   match Auth.user s, u with
   | Some _, Some usr =>
       Some (exec (User.addToHistory now (Song._id (doc t)) (Song.duration (doc t))) usr)
   | _, _ => u
   end).

(** Sample data. *)
Definition premium_track : Track :=
  mkTrack (Song.mkDoc "s1" 180 41 [] []) true "uploads/songs/s1.mp3".

Definition free_track : Track :=
  mkTrack (Song.mkDoc "s2" 200 5 [] []) false "uploads/songs/s2.mp3".

End Routes.

(* ===================================================================== *)
(** * Facts about the array operations *)
(* ===================================================================== *)

Section ArrayFacts.

Lemma indexOf_from_absent (x : ObjectId) :
  forall l i, ~ In x l -> Js.indexOf_from l x i = -1.
Proof.
  induction l as [|y r IH]; intros i Hx; simpl.
  - reflexivity.
  - destruct (String.eqb_spec y x) as [->|Hne].
    + exfalso. apply Hx. now left.
    + apply IH. intros Hin. apply Hx. now right.
Qed.

Lemma indexOf_from_present (x : ObjectId) :
  forall l i, In x l -> 0 <= i ->
    i <= Js.indexOf_from l x i /\
    Js.splice (Js.indexOf_from l x i - i) 1 l = Js.remove_first x l.
Proof.
  induction l as [|y r IH]; intros i Hx Hi; simpl.
  - destruct Hx.
  - destruct (String.eqb_spec y x) as [->|Hne].
    + split; [lia|]. replace (i - i) with 0 by lia. reflexivity.
    + destruct Hx as [Hx|Hx]; [congruence|].
      destruct (IH (i + 1) Hx ltac:(lia)) as [Hle Hsp].
      split; [lia|].
      unfold Js.splice in *.
      replace (Z.to_nat (Js.indexOf_from r x (i + 1) - i))
        with (S (Z.to_nat (Js.indexOf_from r x (i + 1) - (i + 1)))) by lia.
      replace (Z.to_nat (Js.indexOf_from r x (i + 1) - i + 1))
        with (S (Z.to_nat (Js.indexOf_from r x (i + 1) - (i + 1) + 1))) by lia.
      simpl. now rewrite Hsp.
Qed.

Lemma indexOf_found (l : list ObjectId) (x : ObjectId) :
  In x l -> (Js.indexOf l x >? -1) = true.
Proof.
  intros Hx. destruct (indexOf_from_present x l 0 Hx ltac:(lia)) as [H _].
  unfold Js.indexOf. lia.
Qed.

Lemma indexOf_missing (l : list ObjectId) (x : ObjectId) :
  ~ In x l -> (Js.indexOf l x >? -1) = false.
Proof.
  intros Hx. unfold Js.indexOf. rewrite indexOf_from_absent by assumption. reflexivity.
Qed.

Lemma splice_indexOf (l : list ObjectId) (x : ObjectId) :
  In x l -> Js.splice (Js.indexOf l x) 1 l = Js.remove_first x l.
Proof.
  intros Hx. destruct (indexOf_from_present x l 0 Hx ltac:(lia)) as [_ H].
  unfold Js.indexOf. now rewrite Z.sub_0_r in H.
Qed.

Lemma remove_first_incl (x y : ObjectId) :
  forall l, In y (Js.remove_first x l) -> In y l.
Proof.
  induction l as [|z r IH]; simpl; [tauto|].
  destruct (String.eqb z x); simpl; intuition.
Qed.

Lemma remove_first_NoDup (x : ObjectId) :
  forall l, NoDup l -> NoDup (Js.remove_first x l).
Proof.
  induction l as [|z r IH]; simpl; intros Hnd; [constructor|].
  inversion Hnd as [|? ? Hz Hr]; subst.
  destruct (String.eqb z x); [assumption|].
  constructor; [|now apply IH].
  intros Hin. apply Hz. eapply remove_first_incl; eassumption.
Qed.

Lemma remove_first_count (x : ObjectId) :
  forall l, In x l ->
    S (count_occ string_dec (Js.remove_first x l) x) = count_occ string_dec l x.
Proof.
  induction l as [|z r IH]; simpl; intros Hx; [destruct Hx|].
  destruct (String.eqb_spec z x) as [->|Hne].
  - destruct (string_dec x x); [reflexivity|congruence].
  - destruct Hx as [Hx|Hx]; [congruence|]. simpl.
    destruct (string_dec z x); [congruence|]. now apply IH.
Qed.

Lemma remove_first_gone (x : ObjectId) (l : list ObjectId) :
  (count_occ string_dec l x <= 1)%nat -> ~ In x (Js.remove_first x l).
Proof.
  intros Hc Hin.
  assert (Hx : In x l) by (eapply remove_first_incl; eassumption).
  pose proof (remove_first_count x l Hx) as Hs.
  apply (count_occ_In string_dec) in Hin. lia.
Qed.

Lemma NoDup_count_le_1 (x : ObjectId) (l : list ObjectId) :
  NoDup l -> (count_occ string_dec l x <= 1)%nat.
Proof.
  intros Hnd. now apply (proj1 (NoDup_count_occ string_dec l)).
Qed.

Lemma existsb_eqb_In (x : ObjectId) (l : list ObjectId) :
  existsb (String.eqb x) l = true <-> In x l.
Proof.
  rewrite existsb_exists. split.
  - intros [y [Hy He]]. apply String.eqb_eq in He. now subst.
  - intros Hx. exists x. split; [assumption| apply String.eqb_refl].
Qed.

End ArrayFacts.

(* ===================================================================== *)
(** * Facts about the double-precision sum *)
(* ===================================================================== *)

Section NumberFacts.

Lemma round_small (z : Z) : Z.abs z < 2 ^ 53 -> Js.round_to_double z = z.
Proof.
  intros Hz. unfold Js.round_to_double.
  assert (H : Z.log2 (Z.abs z) - 52 <= 0).
  { destruct (Z.eq_dec (Z.abs z) 0) as [->|Hn]; [simpl; lia|].
    assert (Z.log2 (Z.abs z) < 53) by (apply Z.log2_lt_pow2; lia). lia. }
  apply Z.leb_le in H. now rewrite H.
Qed.

Lemma round_safe (z : Z) : Z.abs z <= 2 ^ 53 -> Js.round_to_double z = z.
Proof.
  intros Hz. destruct (Z.eq_dec (Z.abs z) (2 ^ 53)) as [He|Hn].
  - destruct (Z.abs_eq_or_opp z) as [H|H]; rewrite H in He.
    + subst z. reflexivity.
    + assert (z = - 2 ^ 53) by lia. subst z. reflexivity.
  - apply round_small. lia.
Qed.

(** The rounded value, by the unit [u] of the last place. *)
Lemma round_large (z : Z) :
  0 < Z.log2 (Z.abs z) - 52 ->
  let u := 2 ^ (Z.log2 (Z.abs z) - 52) in
  let q := Z.abs z / u in
  let r := Z.abs z mod u in
  exists q', Js.round_to_double z = Z.sgn z * (q' * u) /\
             q <= q' <= q + 1 /\ (q' = q + 1 -> u <= 2 * r).
Proof.
  intros He. cbv zeta. unfold Js.round_to_double.
  assert (Hb : (Z.log2 (Z.abs z) - 52 <=? 0) = false) by (apply Z.leb_gt; lia).
  rewrite Hb.
  set (u := 2 ^ (Z.log2 (Z.abs z) - 52)). set (q := Z.abs z / u). set (r := Z.abs z mod u).
  destruct (2 * r <? u) eqn:H1.
  - exists q. split; [reflexivity|]. split; lia.
  - apply Z.ltb_ge in H1. destruct (u <? 2 * r) eqn:H2.
    + exists (q + 1). split; [reflexivity|]. split; lia.
    + destruct (Z.even q).
      * exists q. split; [reflexivity|]. split; lia.
      * exists (q + 1). split; [reflexivity|]. split; lia.
Qed.

Lemma double_divides (z : Z) :
  Js.is_double z = true -> 0 < Z.log2 (Z.abs z) - 52 ->
  (2 ^ (Z.log2 (Z.abs z) - 52) | Z.abs z).
Proof.
  intros Hd He. apply Z.eqb_eq in Hd.
  destruct (round_large z He) as [q' [Hr [Hq _]]]. rewrite Hd in Hr.
  set (u := 2 ^ (Z.log2 (Z.abs z) - 52)) in *.
  assert (Hu : 0 < u) by (apply Z.pow_pos_nonneg; lia).
  assert (Hq0 : 0 <= Z.abs z / u) by (apply Z.div_pos; lia).
  assert (Hz : z <> 0). { intros ->. simpl in He. lia. }
  exists q'. destruct (Z.sgn_spec z) as [[Hp Hs]|[[H0 Hs]|[Hn Hs]]]; rewrite Hs in Hr; lia.
Qed.

Lemma plus_one_not_below (a : Z) : Js.is_double a = true -> a <= Js.round_to_double (a + 1).
Proof.
  intros Hd.
  destruct (Z_le_gt_dec (Z.log2 (Z.abs (a + 1)) - 52) 0) as [Hs|Hl].
  { unfold Js.round_to_double. apply Z.leb_le in Hs. rewrite Hs. lia. }
  assert (Hl' : 0 < Z.log2 (Z.abs (a + 1)) - 52) by lia.
  destruct (round_large (a + 1) Hl') as [q' [Hr [Hq Hup]]].
  remember (Z.log2 (Z.abs (a + 1))) as k eqn:Ek.
  remember (2 ^ (k - 52)) as u eqn:Eu.
  assert (Hu : 2 <= u).
  { rewrite Eu. change 2 with (2 ^ 1) at 1. apply Z.pow_le_mono_r; lia. }
  assert (Hz0 : Z.abs (a + 1) <> 0). { intros H0. rewrite H0 in Ek. simpl in Ek. lia. }
  pose proof (Z.div_mod (Z.abs (a + 1)) u ltac:(lia)) as Hdm.
  pose proof (Z.mod_pos_bound (Z.abs (a + 1)) u ltac:(lia)) as Hmb.
  remember (Z.abs (a + 1) / u) as q eqn:Eq. remember (Z.abs (a + 1) mod u) as r eqn:Er.
  destruct (Z_lt_le_dec a 0) as [Hneg|Hpos].
  - (* a < 0, so a + 1 < 0 *)
    assert (Hz : a + 1 < 0) by lia.
    rewrite Hr, (Z.sgn_neg _ Hz).
    destruct (Z.eq_dec q' q) as [->|Hq1]; [nia|].
    assert (q' = q + 1) by lia. subst q'.
    assert (Hka : k <= Z.log2 (Z.abs a)) by (rewrite Ek; apply Z.log2_le_mono; lia).
    assert (Hda : (2 ^ (Z.log2 (Z.abs a) - 52) | Z.abs a)) by (apply double_divides; [assumption|lia]).
    assert (Hua : (u | Z.abs a)).
    { eapply Z.divide_trans; [|exact Hda]. rewrite Eu.
      exists (2 ^ (Z.log2 (Z.abs a) - k)). rewrite <- Z.pow_add_r by lia. f_equal. lia. }
    destruct Hua as [c Hc].
    assert (Habs : Z.abs a = Z.abs (a + 1) + 1) by lia.
    assert (r = u - 1).
    { assert (Hcu : c * u = u * q + r + 1) by lia.
      assert (Hm : (r + 1) mod u = 0).
      { replace (r + 1) with (c * u - u * q) by lia.
        replace (c * u - u * q) with ((c - q) * u) by ring. apply Z.mod_mul. lia. }
      destruct (Z.eq_dec (r + 1) u) as [|Hn]; [lia|].
      rewrite Z.mod_small in Hm by lia. lia. }
    nia.
  - (* 0 <= a *)
    assert (Hz : 0 < a + 1) by lia.
    rewrite Hr, (Z.sgn_pos _ Hz).
    rewrite (Z.abs_eq (a + 1)) in * by lia.
    assert (Hr1 : r <= 1).
    { assert (Hka : Z.log2 (Z.abs a) <= k) by (rewrite Ek; apply Z.log2_le_mono; lia).
      rewrite (Z.abs_eq a) in * by lia.
      destruct (Z.eq_dec (Z.log2 a) k) as [He|Hne].
      - assert (Hda : (2 ^ (Z.log2 (Z.abs a) - 52) | Z.abs a)).
        { apply double_divides; [assumption|]. rewrite (Z.abs_eq a) by lia. lia. }
        rewrite (Z.abs_eq a) in Hda by lia. rewrite He, <- Eu in Hda.
        destruct Hda as [c Hc]. rewrite Er.
        replace (a + 1) with (1 + c * u) by lia. rewrite Z.mod_add by lia.
        rewrite Z.mod_small by lia. lia.
      - assert (Hlt : Z.log2 a < k) by lia.
        assert (a + 1 = 2 ^ k).
        { pose proof (Z.log2_spec (a + 1) Hz) as [H1 H2]. rewrite <- Ek in H1, H2.
          destruct (Z.eq_dec a 0) as [->|Ha0].
          - simpl in Ek. lia.
          - pose proof (Z.log2_spec a ltac:(lia)) as [H3 H4].
            assert (2 ^ Z.succ (Z.log2 a) <= 2 ^ k) by (apply Z.pow_le_mono_r; lia).
            lia. }
        rewrite Er, H, Eu.
        replace (2 ^ k) with (2 ^ 52 * 2 ^ (k - 52)).
        + rewrite Z.mod_mul; [lia|]. apply Z.pow_nonzero; lia.
        + rewrite <- Z.pow_add_r by lia. f_equal. lia. }
    nia.
Qed.

Lemma plus_one_ge (a : Z) : a <= Js.plus a 1.
Proof.
  unfold Js.plus. destruct (Js.is_double a) eqn:Hd; simpl; [|lia].
  change (Js.is_double 1) with true. simpl. now apply plus_one_not_below.
Qed.

Lemma plus_one_safe (a : Z) : Z.abs a <= Js.MAX_SAFE_INTEGER -> Js.plus a 1 = a + 1.
Proof.
  unfold Js.MAX_SAFE_INTEGER. intros Ha. unfold Js.plus. destruct (Js.is_double a && Js.is_double 1); [|reflexivity].
  apply round_safe. lia.
Qed.

End NumberFacts.

(* ===================================================================== *)
(** * Song: likes and dislikes *)
(* ===================================================================== *)

Section SongFacts.

Import Song.

Lemma NoDup_push (l : list ObjectId) (x : ObjectId) :
  NoDup l -> ~ In x l -> NoDup (Js.push l x).
Proof.
  intros Hl Hx. unfold Js.push. apply NoDup_app; [assumption| |].
  - constructor; [intros []|constructor].
  - intros a Ha [<-|[]]. contradiction.
Qed.

Lemma In_push (l : list ObjectId) (x y : ObjectId) :
  In y (Js.push l x) <-> In y l \/ y = x.
Proof.
  unfold Js.push. rewrite in_app_iff. simpl. intuition.
Qed.

(** The three ways a call of [toggleLike] goes. *)
Lemma toggleLike_off (u : ObjectId) (s : Doc) :
  In u (likes s) ->
  Song.toggleLike u s =
    let s' := set_likes (Js.remove_first u (likes s)) s in (Normal s', s').
Proof.
  intros Hl. unfold Song.toggleLike, bind, get, modify, save.
  rewrite (indexOf_found _ _ Hl). simpl. now rewrite splice_indexOf.
Qed.

Lemma toggleLike_switch (u : ObjectId) (s : Doc) :
  ~ In u (likes s) -> In u (dislikes s) ->
  Song.toggleLike u s =
    let s' := set_dislikes (Js.remove_first u (dislikes s))
                (set_likes (Js.push (likes s) u) s) in (Normal s', s').
Proof.
  intros Hl Hd. unfold Song.toggleLike, bind, get, modify, save.
  rewrite (indexOf_missing _ _ Hl), (indexOf_found _ _ Hd). simpl.
  now rewrite splice_indexOf.
Qed.

Lemma toggleLike_on (u : ObjectId) (s : Doc) :
  ~ In u (likes s) -> ~ In u (dislikes s) ->
  Song.toggleLike u s =
    let s' := set_likes (Js.push (likes s) u) s in (Normal s', s').
Proof.
  intros Hl Hd. unfold Song.toggleLike, bind, get, modify, save.
  now rewrite (indexOf_missing _ _ Hl), (indexOf_missing _ _ Hd).
Qed.

(** And of [toggleDislike]. *)
Lemma toggleDislike_off (u : ObjectId) (s : Doc) :
  In u (dislikes s) ->
  Song.toggleDislike u s =
    let s' := set_dislikes (Js.remove_first u (dislikes s)) s in (Normal s', s').
Proof.
  intros Hd. unfold Song.toggleDislike, bind, get, modify, save.
  rewrite (indexOf_found _ _ Hd). simpl. now rewrite splice_indexOf.
Qed.

Lemma toggleDislike_switch (u : ObjectId) (s : Doc) :
  ~ In u (dislikes s) -> In u (likes s) ->
  Song.toggleDislike u s =
    let s' := set_likes (Js.remove_first u (likes s))
                (set_dislikes (Js.push (dislikes s) u) s) in (Normal s', s').
Proof.
  intros Hd Hl. unfold Song.toggleDislike, bind, get, modify, save.
  rewrite (indexOf_missing _ _ Hd), (indexOf_found _ _ Hl). simpl.
  now rewrite splice_indexOf.
Qed.

Lemma toggleDislike_on (u : ObjectId) (s : Doc) :
  ~ In u (dislikes s) -> ~ In u (likes s) ->
  Song.toggleDislike u s =
    let s' := set_dislikes (Js.push (dislikes s) u) s in (Normal s', s').
Proof.
  intros Hd Hl. unfold Song.toggleDislike, bind, get, modify, save.
  now rewrite (indexOf_missing _ _ Hd), (indexOf_missing _ _ Hl).
Qed.

(** Splits on whether [u] is liked and disliked in [s] and rewrites the
    call with the matching equation. *)
Ltac toggle_cases u s :=
  destruct (in_dec string_dec u (likes s)) as [Hl|Hl];
  destruct (in_dec string_dec u (dislikes s)) as [Hd|Hd];
  unfold exec;
  first [ rewrite (toggleLike_off u s Hl)
        | rewrite (toggleLike_switch u s Hl Hd)
        | rewrite (toggleLike_on u s Hl Hd)
        | rewrite (toggleDislike_off u s Hd)
        | rewrite (toggleDislike_switch u s Hd Hl)
        | rewrite (toggleDislike_on u s Hd Hl) ];
  cbn [snd fst likes dislikes set_likes set_dislikes].

Lemma toggleLike_keeps (u : ObjectId) (s : Doc) :
  set_like s -> exclusive s ->
  set_like (exec (Song.toggleLike u) s) /\ exclusive (exec (Song.toggleLike u) s).
Proof.
  intros [Nl Nd] Hex. unfold set_like, exclusive.
  toggle_cases u s.
  - split; [split; [now apply remove_first_NoDup|assumption]|].
    intros v [Hv1 Hv2]. apply (Hex v). split; [|assumption].
    eapply remove_first_incl; eassumption.
  - split; [split; [now apply remove_first_NoDup|assumption]|].
    intros v [Hv1 Hv2]. apply (Hex v). split; [|assumption].
    eapply remove_first_incl; eassumption.
  - split; [split; [now apply NoDup_push|now apply remove_first_NoDup]|].
    intros v [Hv1 Hv2]. apply In_push in Hv1. destruct Hv1 as [Hv1| ->].
    + apply (Hex v). split; [assumption|]. eapply remove_first_incl; eassumption.
    + revert Hv2. apply remove_first_gone. now apply NoDup_count_le_1.
  - split; [split; [now apply NoDup_push|assumption]|].
    intros v [Hv1 Hv2]. apply In_push in Hv1. destruct Hv1 as [Hv1| ->].
    + apply (Hex v). now split.
    + contradiction.
Qed.

Lemma toggleDislike_keeps (u : ObjectId) (s : Doc) :
  set_like s -> exclusive s ->
  set_like (exec (Song.toggleDislike u) s) /\ exclusive (exec (Song.toggleDislike u) s).
Proof.
  intros [Nl Nd] Hex. unfold set_like, exclusive.
  toggle_cases u s.
  - split; [split; [assumption|now apply remove_first_NoDup]|].
    intros v [Hv1 Hv2]. apply (Hex v). split; [assumption|].
    eapply remove_first_incl; eassumption.
  - split; [split; [now apply remove_first_NoDup|now apply NoDup_push]|].
    intros v [Hv1 Hv2]. apply In_push in Hv2. destruct Hv2 as [Hv2| ->].
    + apply (Hex v). split; [|assumption]. eapply remove_first_incl; eassumption.
    + revert Hv1. apply remove_first_gone. now apply NoDup_count_le_1.
  - split; [split; [assumption|now apply remove_first_NoDup]|].
    intros v [Hv1 Hv2]. apply (Hex v). split; [assumption|].
    eapply remove_first_incl; eassumption.
  - split; [split; [assumption|now apply NoDup_push]|].
    intros v [Hv1 Hv2]. apply In_push in Hv2. destruct Hv2 as [Hv2| ->].
    + apply (Hex v). now split.
    + contradiction.
Qed.

(** A new song has empty arrays. *)
Lemma empty_set_like_exclusive (s : Doc) :
  likes s = [] -> dislikes s = [] -> set_like s /\ exclusive s.
Proof.
  intros Hl Hd. unfold set_like, exclusive. rewrite Hl, Hd.
  repeat split; try constructor. intros u [[] _].
Qed.

Lemma toggles_keep (ts : list Toggle) :
  forall s, set_like s -> exclusive s ->
    set_like (toggles ts s) /\ exclusive (toggles ts s).
Proof.
  induction ts as [|t ts IH]; intros s Hs Hex; simpl.
  - now split.
  - destruct t as [u|u]; simpl.
    + destruct (toggleLike_keeps u s Hs Hex) as [H1 H2]. now apply IH.
    + destruct (toggleDislike_keeps u s Hs Hex) as [H1 H2]. now apply IH.
Qed.

(** After [toggleLike] the user is liked or was un-liked, and is never
    left disliked when the arrays were set-like. *)
Lemma like_then_dislike (u : ObjectId) (s : Doc) :
  set_like s -> exclusive s ->
  let s' := exec (Song.toggleDislike u) (exec (Song.toggleLike u) s) in
  In u (dislikes s') /\ ~ In u (likes s').
Proof.
  intros Hs Hex.
  destruct (toggleLike_keeps u s Hs Hex) as [[Nl1 Nd1] Hex1].
  assert (Hnd : ~ In u (dislikes (exec (Song.toggleLike u) s))).
  { destruct Hs as [Nl Nd]. revert Nl1 Nd1 Hex1. toggle_cases u s; intros Nl1 Nd1 Hex1.
    - intros Hd'. apply (Hex u). now split.
    - assumption.
    - apply remove_first_gone. now apply NoDup_count_le_1.
    - assumption. }
  set (s1 := exec (Song.toggleLike u) s) in *. cbv zeta.
  destruct (in_dec string_dec u (likes s1)) as [Hl|Hl]; unfold exec.
  - rewrite (toggleDislike_switch u s1 Hnd Hl). cbn. split.
    + apply In_push. now right.
    + apply remove_first_gone. now apply NoDup_count_le_1.
  - rewrite (toggleDislike_on u s1 Hnd Hl). cbn. split.
    + apply In_push. now right.
    + assumption.
Qed.

End SongFacts.

Section SongClaims.

Import Song.

Lemma liked_iff (u : ObjectId) (s : Doc) : liked u s = true <-> In u (likes s).
Proof. apply existsb_eqb_In. Qed.

Lemma liked_false_iff (u : ObjectId) (s : Doc) : liked u s = false <-> ~ In u (likes s).
Proof.
  rewrite <- liked_iff. destruct (liked u s); split; intros H; congruence.
Qed.

Lemma sample_set_like : set_like sample.
Proof.
  split; repeat constructor; simpl; intuition.
Qed.

Lemma sample_exclusive : exclusive sample.
Proof.
  intros u [[<-|[]] [H|[]]]. discriminate H.
Qed.

(** C3, as stated, fails: likes and dislikes are disjoint in
    [disliked_twice], and one [toggleLike] of the user listed twice leaves
    that user in both arrays, because [splice] removes one occurrence. *)
Lemma toggleLike_duplicate_dislike_overlaps :
  exclusive disliked_twice /\
  ~ exclusive (toggles [Like "u1"] disliked_twice).
Proof.
  split.
  - intros u [[] _].
  - intros H. apply (H "u1"). vm_compute. split; now left.
Qed.

(** C3 (amended): from a song whose likes and dislikes each list no user
    twice and share no user, every sequence of [toggleLike] and
    [toggleDislike] calls leaves them so; and [toggleLike(u)] followed by
    [toggleDislike(u)] leaves [u] in dislikes and not in likes. *)
Theorem toggles_keep_likes_and_dislikes_disjoint :
  forall s : Doc,
    set_like s -> exclusive s ->
    (forall ts : list Toggle,
        set_like (toggles ts s) /\ exclusive (toggles ts s)) /\
    (forall u : ObjectId,
        In u (dislikes (toggles [Like u; Dislike u] s)) /\
        ~ In u (likes (toggles [Like u; Dislike u] s))).
Proof.
  intros s Hs Hex. split.
  - intros ts. now apply toggles_keep.
  - intros u. exact (like_then_dislike u s Hs Hex).
Qed.

Lemma toggles_keep_likes_and_dislikes_disjoint_witness :
  set_like sample /\ exclusive sample /\
  exclusive (toggles [Like "u2"; Dislike "u1"; Like "u3"; Like "u1"] sample) /\
  In "u1" (dislikes (toggles [Like "u1"; Dislike "u1"] sample)) /\
  ~ In "u1" (likes (toggles [Like "u1"; Dislike "u1"] sample)).
Proof.
  destruct (toggles_keep_likes_and_dislikes_disjoint sample
              sample_set_like sample_exclusive) as [Hseq Hpair].
  split; [exact sample_set_like|]. split; [exact sample_exclusive|].
  split; [exact (proj2 (Hseq _))|]. exact (Hpair "u1").
Defined.

(** C7, as stated, fails: in [liked_twice] the user is liked, and after two
    consecutive [toggleLike] calls is not: each call removes one of the two
    occurrences. *)
Lemma toggleLike_twice_duplicate_like_lost :
  liked "u1" liked_twice = true /\
  liked "u1" (exec (Song.toggleLike "u1") (exec (Song.toggleLike "u1") liked_twice)) = false.
Proof. split; reflexivity. Qed.

(** C7 (amended): for every song and user listed at most once in the
    song's likes, two consecutive [toggleLike] calls for that user leave
    the user liked exactly when the user was liked before. *)
Theorem toggleLike_twice_restores_like :
  forall (s : Doc) (u : ObjectId),
    (count_occ string_dec (likes s) u <= 1)%nat ->
    liked u (exec (Song.toggleLike u) (exec (Song.toggleLike u) s)) = liked u s.
Proof.
  intros s u Hc.
  destruct (in_dec string_dec u (likes s)) as [Hl|Hl].
  - rewrite (proj2 (liked_iff u s) Hl).
    unfold exec at 2. rewrite (toggleLike_off u s Hl). cbn [snd].
    set (s1 := set_likes (Js.remove_first u (likes s)) s).
    assert (Hl1 : ~ In u (likes s1)) by (now apply remove_first_gone).
    apply liked_iff.
    destruct (in_dec string_dec u (dislikes s1)) as [Hd|Hd]; unfold exec.
    + rewrite (toggleLike_switch u s1 Hl1 Hd). cbn. apply In_push. now right.
    + rewrite (toggleLike_on u s1 Hl1 Hd). cbn. apply In_push. now right.
  - rewrite (proj2 (liked_false_iff u s) Hl).
    assert (H1 : exists d, exec (Song.toggleLike u) s = set_dislikes d (set_likes (Js.push (likes s) u) s)).
    { destruct (in_dec string_dec u (dislikes s)) as [Hd|Hd]; unfold exec.
      - rewrite (toggleLike_switch u s Hl Hd). cbn. eauto.
      - rewrite (toggleLike_on u s Hl Hd). cbn. exists (dislikes s). now destruct s. }
    destruct H1 as [d ->].
    set (s1 := set_dislikes d (set_likes (Js.push (likes s) u) s)).
    assert (Hl1 : In u (likes s1)) by (apply In_push; now right).
    apply liked_false_iff. unfold exec. rewrite (toggleLike_off u s1 Hl1). cbn.
    apply remove_first_gone. subst s1. cbn [likes set_likes set_dislikes].
    unfold Js.push. rewrite count_occ_app. simpl.
    apply (count_occ_not_In string_dec) in Hl. unfold ObjectId in *. rewrite Hl.
    destruct (string_dec u u); [lia|congruence].
Qed.

Lemma toggleLike_twice_restores_like_witness :
  (count_occ string_dec (likes sample) "u1" <= 1)%nat /\
  liked "u1" (exec (Song.toggleLike "u1") (exec (Song.toggleLike "u1") sample))
    = liked "u1" sample.
Proof.
  assert (H : (count_occ string_dec (likes sample) "u1" <= 1)%nat)
    by (vm_compute; lia).
  split; [exact H|]. exact (toggleLike_twice_restores_like sample "u1" H).
Defined.

End SongClaims.

(* ===================================================================== *)
(** * Playlist: membership and duration *)
(* ===================================================================== *)

Section PlaylistMembership.

Import Playlist.

Variable db : list Song.Doc.

Lemma set_songs_same (p : Doc) : set_songs (songs p) p = p.
Proof. now destruct p. Qed.

Lemma find_none_existsb {A} (f : A -> bool) (l : list A) :
  find f l = None <-> existsb f l = false.
Proof.
  induction l as [|x r IH]; simpl; [tauto|].
  destruct (f x); simpl; [split; discriminate|exact IH].
Qed.

Lemma find_some_existsb {A} (f : A -> bool) (l : list A) :
  existsb f l = true -> exists x, find f l = Some x /\ In x l /\ f x = true.
Proof.
  induction l as [|x r IH]; simpl; [discriminate|].
  destruct (f x) eqn:Hx; simpl.
  - intros _. exists x. auto.
  - intros H. destruct (IH H) as [y [Hy [Hin Hf]]]. exists y. auto.
Qed.

Lemma filter_out_absent {A} (f : A -> bool) (l : list A) :
  existsb f l = false -> filter (fun x => negb (f x)) l = l.
Proof.
  induction l as [|x r IH]; simpl; [reflexivity|].
  destruct (f x); simpl; [discriminate|].
  intros H. now rewrite IH.
Qed.

Lemma save_runs (p : Doc) : Playlist.save db p = (Normal (saved db p), saved db p).
Proof.
  unfold Playlist.save, preSave, bind, get, modify, Playlist.saved, member_durations.
  destruct (Js.length (songs p) >? 0); reflexivity.
Qed.

Lemma saved_songs (p : Doc) : songs (saved db p) = songs p.
Proof. unfold Playlist.saved. destruct (Js.length (songs p) >? 0); reflexivity. Qed.

Lemma saved_nonempty (p : Doc) :
  songs p <> [] -> duration (saved db p) = member_durations db (saved db p).
Proof.
  intros Hne. unfold Playlist.saved.
  assert (Hl : (Js.length (songs p) >? 0) = true).
  { unfold Js.length. destruct (songs p); [congruence|cbn [List.length]; apply Z.gtb_lt; lia]. }
  rewrite Hl. reflexivity.
Qed.

Lemma saved_empty (p : Doc) : songs p = [] -> saved db p = p.
Proof. intros Hs. unfold Playlist.saved, Js.length. now rewrite Hs. Qed.

Lemma removeSong_runs (s : ObjectId) (p : Doc) :
  removeSong db s p =
    let p' := saved db (set_songs (filter (fun e => negb (is_song s e)) (songs p)) p) in
    (Normal p', p').
Proof.
  unfold removeSong, bind, modify. now rewrite save_runs.
Qed.

Lemma addSong_member (now : Date) (s u : ObjectId) (p : Doc) :
  is_member s p = true ->
  addSong db now s u p = (Throw (Error "Song already exists in playlist"), p).
Proof.
  intros Hm. unfold addSong, bind, get.
  destruct (find_some_existsb _ _ Hm) as [e [-> _]]. reflexivity.
Qed.

Lemma addSong_new (now : Date) (s u : ObjectId) (p : Doc) :
  is_member s p = false ->
  addSong db now s u p =
    let p' := saved db (set_songs (Js.push (songs p)
                                     (mkEntry s now u (Js.plus (maxOrder (songs p)) 1))) p) in
    (Normal p', p').
Proof.
  intros Hm. unfold addSong, bind, get, modify.
  rewrite (proj2 (find_none_existsb _ _) Hm). now rewrite save_runs.
Qed.

Lemma Math_max_ge_start (r : list Z) : forall x, x <= Js.Math_max x r.
Proof.
  unfold Js.Math_max. induction r as [|y r IH]; intros x; simpl; [lia|].
  specialize (IH (Z.max x y)). lia.
Qed.

Lemma Math_max_ge (r : list Z) : forall x y, In y r -> y <= Js.Math_max x r.
Proof.
  unfold Js.Math_max. induction r as [|z r IH]; intros x y Hy; simpl; [destruct Hy|].
  destruct Hy as [->|Hy].
  - pose proof (Math_max_ge_start r (Z.max x y)) as H. unfold Js.Math_max in H. lia.
  - now apply IH.
Qed.

Lemma maxOrder_ge (l : list Entry) (e : Entry) : In e l -> order e <= maxOrder l.
Proof.
  intros He. apply (in_map order) in He. unfold maxOrder.
  destruct (map order l) as [|o os]; [destruct He|].
  destruct He as [<-|He]; [apply Math_max_ge_start|now apply Math_max_ge].
Qed.

(** While the playlist keeps at least one song, a change that goes
    through leaves the stored duration equal to the sum over its songs. *)
Lemma change_duration_nonempty (c : Change) (p : Doc) :
  duration p = member_durations db p ->
  songs (exec (change db c) p) <> [] ->
  duration (exec (change db c) p) = member_durations db (exec (change db c) p).
Proof.
  intros Hinv. unfold exec. destruct c as [now s u|s]; simpl.
  - destruct (is_member s p) eqn:Hm.
    + rewrite addSong_member by assumption. simpl. intros _. assumption.
    + rewrite addSong_new by assumption. cbn [snd]. rewrite saved_songs.
      intros Hne. now apply saved_nonempty.
  - rewrite removeSong_runs. cbn [snd]. rewrite saved_songs.
    intros Hne. now apply saved_nonempty.
Qed.

(** Removing the last song leaves the duration as it was. *)
Lemma removeSong_last_duration (s : ObjectId) (p : Doc) :
  filter (fun e => negb (is_song s e)) (songs p) = [] ->
  songs (exec (removeSong db s) p) = [] /\
  duration (exec (removeSong db s) p) = duration p.
Proof.
  intros Hf. unfold exec. rewrite removeSong_runs. cbn [snd].
  rewrite saved_empty by (simpl; assumption). simpl. auto.
Qed.

End PlaylistMembership.

Section PlaylistMembershipClaims.

Import Playlist.

(** C1: the code departs from the claim when the last song is removed.
    A new playlist gets the one song of the collection (180 seconds) and
    loses it again: the membership is empty, the sum over it is 0, and the
    stored duration is still 180, because the pre-save hook recomputes the
    duration only while [songs.length > 0].  The same holds for
    [removeSong] on the one-song playlist directly. *)
Theorem removeSong_last_song_keeps_stale_duration :
  let p := changes one_song_db [Add 1000 "s1" "u1"; Remove "s1"] fresh in
  let q := exec (removeSong one_song_db "s1") one_song in
  (songs p = [] /\ member_durations one_song_db p = 0 /\ duration p = 180) /\
  (songs q = [] /\ member_durations one_song_db q = 0 /\ duration q = 180).
Proof. vm_compute. repeat split. Qed.

(** C5, as stated, fails: the one entry of [at_limit] has the order key
    2^53, the song [s2] is not a member, and [addSong] appends an entry for
    it with the very same key: in double precision 2^53 + 1 is 2^53. *)
Lemma addSong_at_2_53_repeats_key :
  is_member "s2" at_limit = false /\
  map order (songs at_limit) = [9007199254740992] /\
  map order (songs (exec (addSong one_song_db 2000 "s2" "u1") at_limit))
    = [9007199254740992; 9007199254740992].
Proof. vm_compute. repeat split. Qed.

(** C5 (amended): [addSong] on a member throws [Song already exists in
    playlist] and leaves the document as it was; on a non-member it returns,
    having appended one entry for the song that records [addedBy] and
    [addedAt] (so a second [addSong] of the same song finds it a member).
    Its order key is the largest key there was plus one in double precision
    (from 0 on an empty playlist): it is never below a key already there,
    and it is greater than every one of them when the largest was a safe
    integer, of magnitude at most 2^53 - 1. *)
Theorem addSong_rejects_member_appends_new :
  forall (db : list Song.Doc) (now : Date) (songId userId : ObjectId) (p : Doc),
    (is_member songId p = true ->
       addSong db now songId userId p
         = (Throw (Error "Song already exists in playlist"), p)) /\
    (is_member songId p = false ->
       exists e : Entry,
         returns (addSong db now songId userId) p = true /\
         songs (exec (addSong db now songId userId) p) = songs p ++ [e] /\
         song e = songId /\ addedBy e = userId /\ addedAt e = now /\
         order e = Js.plus (maxOrder (songs p)) 1 /\
         (forall x, In x (songs p) -> order x <= order e) /\
         (Z.abs (maxOrder (songs p)) <= Js.MAX_SAFE_INTEGER ->
            forall x, In x (songs p) -> order x < order e) /\
         is_member songId (exec (addSong db now songId userId) p) = true).
Proof.
  intros db now songId userId p. split; intros Hm.
  - now apply addSong_member.
  - exists (mkEntry songId now userId (Js.plus (maxOrder (songs p)) 1)).
    unfold returns, result, exec. rewrite addSong_new by assumption.
    cbn [fst snd]. rewrite saved_songs. cbn [songs set_songs song addedBy addedAt order].
    split; [reflexivity|]. split; [reflexivity|]. split; [reflexivity|].
    split; [reflexivity|]. split; [reflexivity|]. split; [reflexivity|].
    split; [|split].
    + intros x Hx. pose proof (maxOrder_ge _ _ Hx).
      pose proof (plus_one_ge (maxOrder (songs p))). lia.
    + intros Hsafe x Hx. pose proof (maxOrder_ge _ _ Hx).
      rewrite (plus_one_safe _ Hsafe). lia.
    + unfold is_member. rewrite saved_songs. cbn [songs set_songs].
      unfold Js.push. rewrite existsb_app. simpl. unfold is_song at 2. simpl.
      rewrite String.eqb_refl. now rewrite orb_true_r.
Qed.

Lemma addSong_rejects_member_appends_new_witness :
  is_member "s1" one_song = true /\
  is_member "s2" one_song = false /\
  Z.abs (maxOrder (songs one_song)) <= Js.MAX_SAFE_INTEGER /\
  addSong one_song_db 2000 "s1" "u1" one_song
    = (Throw (Error "Song already exists in playlist"), one_song) /\
  exists e : Entry,
    returns (addSong one_song_db 2000 "s2" "u1") one_song = true /\
    songs (exec (addSong one_song_db 2000 "s2" "u1") one_song) = songs one_song ++ [e] /\
    song e = "s2" /\ addedBy e = "u1" /\ addedAt e = 2000 /\
    (forall x, In x (songs one_song) -> order x < order e) /\
    is_member "s2" (exec (addSong one_song_db 2000 "s2" "u1") one_song) = true.
Proof.
  assert (Hsafe : Z.abs (maxOrder (songs one_song)) <= Js.MAX_SAFE_INTEGER)
    by (vm_compute; discriminate).
  split; [reflexivity|]. split; [reflexivity|]. split; [exact Hsafe|]. split.
  - exact (proj1 (addSong_rejects_member_appends_new one_song_db 2000 "s1" "u1" one_song)
             eq_refl).
  - destruct (proj2 (addSong_rejects_member_appends_new one_song_db 2000 "s2" "u1" one_song)
                eq_refl) as [e [H1 [H2 [H3 [H4 [H5 [_ [_ [H8 H9]]]]]]]]].
    exists e. repeat split; try assumption. exact (H8 Hsafe).
Defined.

(** C10: [removeSong] of a song that is not a member returns without
    throwing and leaves the membership list as it was. *)
Theorem removeSong_absent_is_silent :
  forall (db : list Song.Doc) (songId : ObjectId) (p : Doc),
    is_member songId p = false ->
    returns (removeSong db songId) p = true /\
    songs (exec (removeSong db songId) p) = songs p.
Proof.
  intros db songId p Hm. unfold returns, result, exec.
  rewrite removeSong_runs. cbn [fst snd]. split; [reflexivity|].
  rewrite saved_songs. cbn [songs set_songs]. now apply filter_out_absent.
Qed.

Lemma removeSong_absent_is_silent_witness :
  is_member "s2" one_song = false /\
  returns (removeSong one_song_db "s2") one_song = true /\
  songs (exec (removeSong one_song_db "s2") one_song) = songs one_song.
Proof.
  split; [reflexivity|].
  exact (removeSong_absent_is_silent one_song_db "s2" one_song eq_refl).
Defined.

End PlaylistMembershipClaims.

(* ===================================================================== *)
(** * Playlist: reordering *)
(* ===================================================================== *)

Section SortFacts.

Context {A : Type} (cmp : A -> A -> Z).

Lemma sort_insert_perm (a : A) (l : list A) :
  Permutation (Js.sort_insert cmp a l) (a :: l).
Proof.
  induction l as [|b r IH]; simpl.
  - apply Permutation_refl.
  - destruct (cmp a b <=? 0).
    + apply Permutation_refl.
    + apply perm_trans with (b :: a :: r).
      * now apply perm_skip.
      * apply perm_swap.
Qed.

Lemma sort_perm (l : list A) : Permutation (Js.sort cmp l) l.
Proof.
  induction l as [|a r IH]; simpl.
  - apply perm_nil.
  - apply perm_trans with (a :: Js.sort cmp r).
    + apply sort_insert_perm.
    + now apply perm_skip.
Qed.

End SortFacts.

Section PlaylistReorder.

Import Playlist.

Lemma sort_insert_HdRel (a b : Entry) (l : list Entry) :
  HdRel ascending b l -> ascending b a ->
  HdRel ascending b (Js.sort_insert by_order a l).
Proof.
  intros Hl Hba. destruct l as [|c r]; simpl.
  - now constructor.
  - destruct (by_order a c <=? 0); constructor; [assumption|].
    now inversion Hl.
Qed.

Lemma sort_insert_sorted (a : Entry) (l : list Entry) :
  Sorted ascending l -> Sorted ascending (Js.sort_insert by_order a l).
Proof.
  induction l as [|b r IH]; simpl; intros Hs.
  - repeat constructor.
  - destruct (by_order a b <=? 0) eqn:Hab.
    + constructor; [assumption|]. constructor.
      unfold ascending, by_order in *. lia.
    + inversion Hs as [|? ? Hr Hb]; subst. constructor.
      * now apply IH.
      * apply sort_insert_HdRel; [assumption|].
        unfold ascending, by_order in *. lia.
Qed.

Lemma sort_sorted (l : list Entry) : Sorted ascending (Js.sort by_order l).
Proof.
  induction l as [|a r IH]; simpl.
  - constructor.
  - now apply sort_insert_sorted.
Qed.

Lemma update_first_absent {B} (f : B -> bool) (g : B -> B) (l : list B) :
  existsb f l = false -> Js.update_first f g l = l.
Proof.
  induction l as [|x r IH]; simpl; [reflexivity|].
  destruct (f x); simpl; [discriminate|]. intros H. now rewrite IH.
Qed.

(** With no song listed twice the first match is the only match. *)
Lemma update_first_unique (a : Assignment) (l : list Entry) :
  NoDup (map song l) ->
  Js.update_first (is_song (songId a)) (set_order (newOrder a)) l = map (assign_one a) l.
Proof.
  induction l as [|x r IH]; simpl; intros Hnd; [reflexivity|].
  inversion Hnd as [|? ? Hx Hr]; subst.
  unfold assign_one at 1. destruct (is_song (songId a) x) eqn:Hm.
  - f_equal. unfold is_song in Hm. apply String.eqb_eq in Hm. rewrite Hm in Hx.
    clear - Hx. induction r as [|y r IH]; simpl; [reflexivity|].
    simpl in Hx. unfold assign_one at 1, is_song.
    destruct (String.eqb_spec (song y) (songId a)) as [He|He].
    + exfalso. apply Hx. now left.
    + f_equal. apply IH. intros Hin. apply Hx. now right.
  - f_equal. now apply IH.
Qed.

Lemma reorder_one_runs (a : Assignment) (p : Doc) :
  reorder_one a p =
    (Normal tt,
     set_songs (Js.update_first (is_song (songId a)) (set_order (newOrder a)) (songs p)) p).
Proof.
  unfold reorder_one, bind, get, modify.
  destruct (find (is_song (songId a)) (songs p)) eqn:Hf; [reflexivity|].
  apply find_none_existsb in Hf. rewrite update_first_absent by assumption.
  unfold ret. now rewrite set_songs_same.
Qed.

Lemma map_song_assign_one (a : Assignment) (l : list Entry) :
  map song (map (assign_one a) l) = map song l.
Proof.
  rewrite map_map. apply map_ext. intros e. unfold assign_one.
  now destruct (is_song (songId a) e).
Qed.

Lemma reordered_cons (a : Assignment) (r : list Assignment) (e : Entry) :
  reordered r (assign_one a e) = reordered (a :: r) e.
Proof.
  unfold reordered, assign_one, is_song. simpl.
  destruct (String.eqb (song e) (songId a)) eqn:He; simpl.
  - destruct (assigned r (song e)) eqn:Hr.
    + reflexivity.
    + rewrite String.eqb_sym, He. reflexivity.
  - destruct (assigned r (song e)) eqn:Hr; [reflexivity|].
    rewrite String.eqb_sym, He. reflexivity.
Qed.

Lemma reordered_nil (l : list Entry) : map (reordered []) l = l.
Proof.
  rewrite <- (map_id l) at 2. apply map_ext. reflexivity.
Qed.

Lemma forEach_reorder_one (songOrders : list Assignment) :
  forall p,
    Js.forEach reorder_one songOrders p =
      (Normal tt, set_songs (applied songOrders (songs p)) p).
Proof.
  induction songOrders as [|a r IH]; intros p.
  - simpl. unfold ret. now rewrite set_songs_same.
  - cbn [Js.forEach]. unfold bind at 1. rewrite reorder_one_runs, IH. reflexivity.
Qed.

Lemma applied_unique (songOrders : list Assignment) :
  forall l, NoDup (map song l) -> applied songOrders l = map (reordered songOrders) l.
Proof.
  induction songOrders as [|a r IH]; intros l Hnd.
  - now rewrite reordered_nil.
  - cbn [applied fold_left]. rewrite update_first_unique by assumption.
    change (applied r (map (assign_one a) l) = map (reordered (a :: r)) l).
    rewrite IH by (now rewrite map_song_assign_one).
    rewrite map_map. apply map_ext. intros e. apply reordered_cons.
Qed.

Lemma update_first_keeps {B} (f : B -> bool) (g : B -> B) (e : B) (l : list B) :
  f e = false -> In e l -> In e (Js.update_first f g l).
Proof.
  intros Hf. induction l as [|x r IH]; simpl; [tauto|].
  intros [->|Hin].
  - rewrite Hf. now left.
  - destruct (f x); right; auto.
Qed.

Lemma applied_keeps_unassigned (songOrders : list Assignment) (e : Entry) :
  forall l, assigned songOrders (song e) = None -> In e l -> In e (applied songOrders l).
Proof.
  induction songOrders as [|a r IH]; intros l Ha Hin; [assumption|].
  simpl in Ha. destruct (assigned r (song e)) eqn:Hr; [discriminate|].
  destruct (String.eqb (songId a) (song e)) eqn:He; [discriminate|].
  cbn [applied fold_left]. apply IH; [assumption|].
  apply update_first_keeps; [|assumption].
  unfold is_song. now rewrite String.eqb_sym.
Qed.

Lemma reorderSongs_runs (db : list Song.Doc) (songOrders : list Assignment) (p : Doc) :
  reorderSongs db songOrders p =
    let p' := saved db (set_songs (Js.sort by_order (applied songOrders (songs p))) p) in
    (Normal p', p').
Proof.
  unfold reorderSongs, bind at 1. rewrite forEach_reorder_one.
  unfold bind, modify. now rewrite save_runs.
Qed.

(** The membership invariant is kept by every membership operation, and a
    new playlist has it. *)
Lemma absent_not_listed (s : ObjectId) (l : list Entry) :
  existsb (is_song s) l = false -> ~ In s (map song l).
Proof.
  induction l as [|x r IH]; simpl; [tauto|].
  unfold is_song at 1. destruct (String.eqb_spec (song x) s) as [He|He]; simpl.
  - discriminate.
  - intros H [Hx|Hx]; [congruence|]. now apply IH.
Qed.

Lemma map_song_update_first (f : Entry -> bool) (n : Z) (l : list Entry) :
  map song (Js.update_first f (set_order n) l) = map song l.
Proof.
  induction l as [|x r IH]; simpl; [reflexivity|].
  destruct (f x); simpl; [reflexivity|now rewrite IH].
Qed.

Lemma map_song_applied (songOrders : list Assignment) :
  forall l, map song (applied songOrders l) = map song l.
Proof.
  induction songOrders as [|a r IH]; intros l; [reflexivity|].
  cbn [applied fold_left]. change (map song (applied r (Js.update_first (is_song (songId a)) (set_order (newOrder a)) l)) = map song l).
  now rewrite IH, map_song_update_first.
Qed.

Lemma filter_keeps_distinct (f : Entry -> bool) (l : list Entry) :
  NoDup (map song l) -> NoDup (map song (filter f l)).
Proof.
  induction l as [|x r IH]; simpl; intros Hnd; [constructor|].
  inversion Hnd as [|? ? Hx Hr]; subst.
  destruct (f x); simpl; [|now apply IH].
  constructor; [|now apply IH].
  intros Hin. apply Hx. apply in_map_iff in Hin. destruct Hin as [y [Hy Hin]].
  apply filter_In in Hin. apply in_map_iff. exists y. tauto.
Qed.

Lemma fresh_distinct : distinct fresh.
Proof. constructor. Qed.

Lemma addSong_keeps_distinct (db : list Song.Doc) (now : Date) (s u : ObjectId) (p : Doc) :
  distinct p -> distinct (exec (addSong db now s u) p).
Proof.
  unfold distinct, exec. intros Hnd. destruct (is_member s p) eqn:Hm.
  - now rewrite addSong_member.
  - rewrite addSong_new by assumption. cbn [snd]. rewrite saved_songs.
    cbn [songs set_songs]. unfold Js.push. rewrite map_app. simpl.
    apply NoDup_app; [assumption|repeat constructor; intros []|].
    intros a Ha [<-|[]]. revert Ha. now apply absent_not_listed.
Qed.

Lemma removeSong_keeps_distinct (db : list Song.Doc) (s : ObjectId) (p : Doc) :
  distinct p -> distinct (exec (removeSong db s) p).
Proof.
  unfold distinct, exec. intros Hnd. rewrite removeSong_runs. cbn [snd].
  rewrite saved_songs. cbn [songs set_songs]. now apply filter_keeps_distinct.
Qed.

Lemma reorderSongs_keeps_distinct (db : list Song.Doc) (songOrders : list Assignment) (p : Doc) :
  distinct p -> distinct (exec (reorderSongs db songOrders) p).
Proof.
  unfold distinct, exec. intros Hnd. rewrite reorderSongs_runs. cbn [snd].
  rewrite saved_songs. cbn [songs set_songs].
  apply (Permutation_NoDup (l := map song (applied songOrders (songs p)))).
  - apply Permutation_map, Permutation_sym, sort_perm.
  - now rewrite map_song_applied.
Qed.

End PlaylistReorder.

Section PlaylistReorderClaims.

Import Playlist.

(** C6, as stated, fails: [listed_twice] is [S1:1, S2:2, S1:3]; the
    assignment [{S1,9}] names the song of its last entry, and that entry
    comes out with its key 3: [find] gives the first match, which alone gets
    the key 9. *)
Lemma reorderSongs_updates_first_match_only :
  In (mkEntry "S1" 1002 "u1" 3) (songs listed_twice) /\
  assigned [mkAssignment "S1" 9] "S1" = Some 9 /\
  songs (exec (reorderSongs one_song_db [mkAssignment "S1" 9]) listed_twice)
    = [mkEntry "S2" 1001 "u1" 2; mkEntry "S1" 1002 "u1" 3; mkEntry "S1" 1000 "u1" 9].
Proof. vm_compute. repeat split. right. right. left. reflexivity. Qed.

(** C6 (amended): [reorderSongs] returns with the membership list sorted by
    order key ascending; an entry whose song no assignment names is still
    there with its order key; and in a playlist that lists no song twice the
    list holds exactly the old entries, each one whose song is named
    carrying the order key given for it (the last one given, were a song
    named more than once).  On [S1:1, S2:2, S3:3] the assignments
    [{S3,1},{S1,3}] give the sequence [S3, S2, S1]. *)
Theorem reorderSongs_assigns_then_sorts :
  forall (db : list Song.Doc) (songOrders : list Assignment) (p : Doc),
    returns (reorderSongs db songOrders) p = true /\
    Sorted ascending (songs (exec (reorderSongs db songOrders) p)) /\
    (forall e, In e (songs p) -> assigned songOrders (song e) = None ->
               In e (songs (exec (reorderSongs db songOrders) p))) /\
    (distinct p ->
       Permutation (songs (exec (reorderSongs db songOrders) p))
                   (map (reordered songOrders) (songs p)) /\
       forall e n, In e (songs p) -> assigned songOrders (song e) = Some n ->
                   In (set_order n e) (songs (exec (reorderSongs db songOrders) p))) /\
    map song (songs (exec (reorderSongs db swap_ends) three_songs)) = ["S3"; "S2"; "S1"].
Proof.
  intros db songOrders p. unfold returns, result, exec.
  rewrite !reorderSongs_runs. cbn [fst snd]. rewrite !saved_songs.
  cbn [songs set_songs].
  split; [reflexivity|]. split; [apply sort_sorted|]. split; [|split].
  - intros e He Ha.
    apply (Permutation_in e (Permutation_sym (sort_perm by_order _))).
    now apply applied_keeps_unassigned.
  - intros Hnd. rewrite applied_unique by assumption. split.
    + apply sort_perm.
    + intros e n He Ha.
      apply (Permutation_in _ (Permutation_sym (sort_perm by_order _))).
      apply in_map_iff. exists e. split; [|assumption].
      unfold reordered. now rewrite Ha.
  - reflexivity.
Qed.

Lemma three_songs_distinct : distinct three_songs.
Proof.
  unfold distinct. simpl. repeat constructor; simpl; intuition discriminate.
Qed.

Lemma reorderSongs_assigns_then_sorts_witness :
  distinct three_songs /\
  In (mkEntry "S2" 1001 "u1" 2) (songs three_songs) /\
  assigned swap_ends "S2" = None /\
  In (mkEntry "S1" 1000 "u1" 1) (songs three_songs) /\
  assigned swap_ends "S1" = Some 3 /\
  In (mkEntry "S2" 1001 "u1" 2) (songs (exec (reorderSongs one_song_db swap_ends) three_songs)) /\
  In (mkEntry "S1" 1000 "u1" 3) (songs (exec (reorderSongs one_song_db swap_ends) three_songs)).
Proof.
  destruct (reorderSongs_assigns_then_sorts one_song_db swap_ends three_songs)
    as [_ [_ [Hkeep [Hset _]]]].
  assert (H2 : In (mkEntry "S2" 1001 "u1" 2) (songs three_songs))
    by (simpl; right; left; reflexivity).
  assert (H1 : In (mkEntry "S1" 1000 "u1" 1) (songs three_songs))
    by (simpl; left; reflexivity).
  split; [exact three_songs_distinct|].
  split; [exact H2|]. split; [reflexivity|].
  split; [exact H1|]. split; [reflexivity|].
  split.
  - exact (Hkeep _ H2 eq_refl).
  - exact (proj2 (Hset three_songs_distinct) _ 3 H1 eq_refl).
Defined.

End PlaylistReorderClaims.

(* ===================================================================== *)
(** * Playlist: collaborators and permissions *)
(* ===================================================================== *)

Section PlaylistPermissions.

Import Playlist.

Lemma saved_collaborators (db : list Song.Doc) (p : Doc) :
  collaborators (saved db p) = collaborators p.
Proof. unfold saved. destruct (Js.length (songs p) >? 0); reflexivity. Qed.

Lemma saved_createdBy (db : list Song.Doc) (p : Doc) :
  createdBy (saved db p) = createdBy p.
Proof. unfold saved. destruct (Js.length (songs p) >? 0); reflexivity. Qed.

Lemma addCollaborator_runs (db : list Song.Doc) (now : Date) (u : ObjectId)
                           (r : option Role) (p : Doc) :
  addCollaborator db now u r p =
    let l := if is_collaborator u p
             then Js.update_first (is_user u) (set_role (role_or_default r)) (collaborators p)
             else Js.push (collaborators p) (mkCollaborator u (role_or_default r) now) in
    let p' := saved db (set_collaborators l p) in
    (Normal p', p').
Proof.
  unfold addCollaborator, is_collaborator, bind at 1, get. cbv zeta.
  destruct (existsb (is_user u) (collaborators p)) eqn:Hc.
  - destruct (find_some_existsb _ _ Hc) as [c [-> _]].
    unfold bind, modify. now rewrite save_runs.
  - rewrite (proj2 (find_none_existsb _ _) Hc).
    unfold bind, modify. now rewrite save_runs.
Qed.

Lemma find_update_first (u : ObjectId) (r : Role) (l : list Collaborator) :
  existsb (is_user u) l = true ->
  exists c, find (is_user u) (Js.update_first (is_user u) (set_role r) l) = Some c /\
            role c = r /\ user c = u.
Proof.
  induction l as [|x t IH]; simpl; [discriminate|].
  destruct (is_user u x) eqn:Hx; simpl.
  - intros _. exists (set_role r x). unfold is_user in *. simpl. rewrite Hx.
    apply String.eqb_eq in Hx. auto.
  - intros H. rewrite Hx. now apply IH.
Qed.

Lemma find_push_new (u : ObjectId) (c : Collaborator) (l : list Collaborator) :
  existsb (is_user u) l = false -> is_user u c = true ->
  find (is_user u) (Js.push l c) = Some c.
Proof.
  intros Hl Hc. induction l as [|x t IH]; simpl in *.
  - now rewrite Hc.
  - destruct (is_user u x); simpl in *; [discriminate|]. now apply IH.
Qed.

(** [addCollaborator] is an upsert for whatever user id it is given. *)
Lemma addCollaborator_upserts (db : list Song.Doc) (now : Date) (u : ObjectId)
                              (r : option Role) (p : Doc) :
  exists c,
    find (is_user u) (collaborators (exec (addCollaborator db now u r) p)) = Some c /\
    role c = role_or_default r /\ user c = u.
Proof.
  unfold exec. rewrite addCollaborator_runs. cbn [snd].
  rewrite saved_collaborators. cbn [collaborators set_collaborators].
  destruct (is_collaborator u p) eqn:Hc.
  - now apply find_update_first.
  - exists (mkCollaborator u (role_or_default r) now). split; [|auto].
    apply find_push_new; [assumption|]. unfold is_user. simpl. apply String.eqb_refl.
Qed.

Lemma findM_same_user (u : ObjectId) (l : list Collaborator) (p : Doc) :
  Js.findM (same_user (Some u)) l p = (Normal (find (is_user u) l), p).
Proof.
  induction l as [|c r IH]; simpl; [reflexivity|].
  unfold bind, same_user, toString, ret in *. simpl.
  unfold is_user at 1. destruct (String.eqb (user c) u); [reflexivity|exact IH].
Qed.

Lemma canEdit_runs (u : ObjectId) (p : Doc) :
  canEdit (Some u) p = (Normal (canEdit_value u p), p).
Proof.
  unfold canEdit, canEdit_value, bind at 1, get.
  unfold bind at 1, toString, ret.
  destruct (String.eqb (createdBy p) u); [reflexivity|].
  destruct (isCollaborative p); simpl; [|reflexivity].
  unfold bind. now rewrite findM_same_user.
Qed.

Lemma canEdit_anonymous (p : Doc) : canEdit None p = (Throw undefined_toString, p).
Proof. reflexivity. Qed.

Lemma canView_anonymous (p : Doc) :
  canView None p =
    if isPublic p then (Normal (JBool true), p) else (Throw undefined_toString, p).
Proof.
  unfold canView, bind, get. destruct (isPublic p); reflexivity.
Qed.

End PlaylistPermissions.

Section PlaylistPermissionClaims.

Import Playlist.

(** C4, as stated, fails: on a new playlist of user [u1] the call
    [addCollaborator(u1, 'viewer')] returns and leaves the owner in the
    collaborator list. *)
Lemma addCollaborator_owner_not_rejected :
  createdBy fresh = "u1" /\
  returns (addCollaborator one_song_db 1000 "u1" (Some viewer)) fresh = true /\
  is_collaborator (createdBy fresh)
    (exec (addCollaborator one_song_db 1000 "u1" (Some viewer)) fresh) = true.
Proof. repeat split. Qed.

(** C4 (amended): [addCollaborator] does not compare the user id with the
    owner: called with the owner's id it returns, the owner is unchanged,
    and the collaborator list then has an entry for the owner with the role
    given (['editor'] when none is given). *)
Theorem addCollaborator_upserts_owner :
  forall (db : list Song.Doc) (now : Date) (r : option Role) (p : Doc),
    returns (addCollaborator db now (createdBy p) r) p = true /\
    createdBy (exec (addCollaborator db now (createdBy p) r) p) = createdBy p /\
    is_collaborator (createdBy p) (exec (addCollaborator db now (createdBy p) r) p) = true /\
    exists c,
      find (is_user (createdBy p))
           (collaborators (exec (addCollaborator db now (createdBy p) r) p)) = Some c /\
      role c = role_or_default r.
Proof.
  intros db now r p.
  destruct (addCollaborator_upserts db now (createdBy p) r p) as [c [Hf [Hr Hu]]].
  split; [|split; [|split]].
  - unfold returns, result. now rewrite addCollaborator_runs.
  - unfold exec. rewrite addCollaborator_runs. cbn [snd]. now rewrite saved_createdBy.
  - unfold is_collaborator.
    destruct (existsb _ _) eqn:He; [reflexivity|].
    apply find_none_existsb in He. congruence.
  - exists c. auto.
Qed.

(** C2: the code departs from the claim for an anonymous caller
    ([req.session.user?.id] is [undefined]).  [canEdit] throws a
    [TypeError] on every playlist, and [canView] returns [true] on a public
    playlist and throws on a private one: both read [userId.toString()]. *)
Theorem anonymous_canEdit_canView_throw :
  forall p : Doc,
    result (canEdit None) p = Throw undefined_toString /\
    result (canView None) p =
      (if isPublic p then Normal (JBool true) else Throw undefined_toString) /\
    result (canEdit None) fresh = Throw undefined_toString /\
    result (canView None) private_fresh = Throw undefined_toString.
Proof.
  intros p. unfold result. rewrite canEdit_anonymous, canView_anonymous.
  destruct (isPublic p); repeat split.
Qed.

(** C9, as stated, fails: [u9] is neither the owner nor a collaborator of
    the collaborative playlist [shared], and [canEdit] returns [undefined]
    for [u9], not [false]: it returns [collaborator && ...] with no
    collaborator found. *)
Lemma canEdit_stranger_gets_undefined :
  "u9" <> createdBy shared /\ is_collaborator "u9" shared = false /\
  result (canEdit (Some "u9")) shared = Normal JUndefined /\
  JUndefined <> JBool false.
Proof. repeat split; discriminate. Qed.

(** C9 (amended): for a real user id, [canEdit] returns [true] for the owner
    whatever the collaborators and flags are; for a user who is neither
    owner nor collaborator it returns, also on a public playlist, [false]
    when the playlist is not collaborative and [undefined] when it is, so
    never a truthy value; and it returns [false] for a user other than the
    owner whose collaborator entries all have the role ['viewer']. *)
Theorem canEdit_owner_stranger_viewer :
  forall (p : Doc) (u : ObjectId),
    (u = createdBy p -> result (canEdit (Some u)) p = Normal (JBool true)) /\
    (u <> createdBy p -> is_collaborator u p = false ->
       result (canEdit (Some u)) p
         = Normal (if isCollaborative p then JUndefined else JBool false) /\
       ToBoolean (if isCollaborative p then JUndefined else JBool false) = false) /\
    (u <> createdBy p -> is_collaborator u p = true ->
       (forall c, In c (collaborators p) -> user c = u -> role c = viewer) ->
       result (canEdit (Some u)) p = Normal (JBool false)).
Proof.
  intros p u. unfold result. rewrite canEdit_runs. cbn [fst].
  unfold canEdit_value. split; [|split].
  - intros ->. now rewrite String.eqb_refl.
  - intros Hne Hc. destruct (String.eqb_spec (createdBy p) u); [congruence|].
    unfold is_collaborator in Hc. rewrite (proj2 (find_none_existsb _ _) Hc).
    destruct (isCollaborative p); simpl; auto.
  - intros Hne Hc Hv. destruct (String.eqb_spec (createdBy p) u); [congruence|].
    destruct (isCollaborative p); simpl; [|reflexivity].
    destruct (find_some_existsb _ _ Hc) as [c [-> [Hin Hu]]].
    unfold is_user in Hu. apply String.eqb_eq in Hu.
    now rewrite (Hv c Hin Hu).
Qed.

Lemma canEdit_owner_stranger_viewer_witness :
  result (canEdit (Some "u1")) shared = Normal (JBool true) /\
  ("u9" <> createdBy fresh /\ is_collaborator "u9" fresh = false /\
   result (canEdit (Some "u9")) fresh
     = Normal (if isCollaborative fresh then JUndefined else JBool false)) /\
  ("u9" <> createdBy shared /\ is_collaborator "u9" shared = false /\
   result (canEdit (Some "u9")) shared
     = Normal (if isCollaborative shared then JUndefined else JBool false)) /\
  ("u2" <> createdBy shared /\ is_collaborator "u2" shared = true /\
   (forall c, In c (collaborators shared) -> user c = "u2" -> role c = viewer) /\
   result (canEdit (Some "u2")) shared = Normal (JBool false)).
Proof.
  assert (N9 : "u9" <> createdBy shared) by discriminate.
  assert (F9 : "u9" <> createdBy fresh) by discriminate.
  assert (N2 : "u2" <> createdBy shared) by discriminate.
  assert (V2 : forall c, In c (collaborators shared) -> user c = "u2" -> role c = viewer).
  { intros c [<-|[<-|[]]] H; [reflexivity|discriminate H]. }
  destruct (canEdit_owner_stranger_viewer shared "u1") as [Ho _].
  destruct (canEdit_owner_stranger_viewer fresh "u9") as [_ [Hf _]].
  destruct (canEdit_owner_stranger_viewer shared "u9") as [_ [Hs _]].
  destruct (canEdit_owner_stranger_viewer shared "u2") as [_ [_ Hv]].
  split; [exact (Ho eq_refl)|]. split; [|split].
  - split; [exact F9|]. split; [reflexivity|]. exact (proj1 (Hf F9 eq_refl)).
  - split; [exact N9|]. split; [reflexivity|]. exact (proj1 (Hs N9 eq_refl)).
  - split; [exact N2|]. split; [reflexivity|]. split; [exact V2|].
    exact (Hv N2 eq_refl V2).
Defined.

End PlaylistPermissionClaims.

(* ===================================================================== *)
(** * User: listening history *)
(* ===================================================================== *)

Section UserHistory.

Import User.

Lemma addToHistory_runs (now : Date) (s : ObjectId) (d : Z) (u : Doc) :
  addToHistory now s d u =
    let u' := set_listeningHistory
                (firstn 100 (mkHistoryEntry s now d :: listeningHistory u)) u in
    (Normal u', u').
Proof.
  unfold addToHistory, bind, modify, get, save, ret. cbn [listeningHistory set_listeningHistory].
  unfold Js.unshift, Js.length.
  destruct (Z.of_nat (List.length (mkHistoryEntry s now d :: listeningHistory u)) >? 100) eqn:Hl.
  - reflexivity.
  - assert (Hle : (List.length (mkHistoryEntry s now d :: listeningHistory u) <= 100)%nat).
    { destruct (Z.gtb_spec
                  (Z.of_nat (List.length (mkHistoryEntry s now d :: listeningHistory u))) 100);
        [discriminate|lia]. }
    rewrite (firstn_all2 _ Hle). reflexivity.
Qed.

Lemma firstn_app_firstn {A} (n : nat) (a l : list A) :
  firstn n (a ++ firstn n l) = firstn n (a ++ l).
Proof.
  rewrite !firstn_app. f_equal. rewrite firstn_firstn. f_equal. lia.
Qed.

Lemma plays_history (ps : list Play) :
  forall u, (List.length (listeningHistory u) <= 100)%nat ->
    listeningHistory (plays ps u) = firstn 100 (rev (map entry_of ps) ++ listeningHistory u).
Proof.
  induction ps as [|[[now s] d] ps IH]; intros u Hu.
  - cbn [plays fold_left map rev app]. now rewrite firstn_all2.
  - cbn [plays fold_left]. change (fold_left _ ps ?x) with (plays ps x).
    unfold exec. rewrite addToHistory_runs. cbn [snd].
    rewrite IH by (cbn [listeningHistory set_listeningHistory]; apply firstn_le_length).
    cbn [listeningHistory set_listeningHistory].
    rewrite firstn_app_firstn. cbn [map rev entry_of]. now rewrite <- app_assoc.
Qed.

End UserHistory.

Section UserHistoryClaims.

Import User.

(** C8: [addToHistory] returns with the new entry first and the earlier
    entries after it in their order, cut to the first 100, so the history
    never holds more than 100 entries after a call; and 105 calls on an
    empty history leave exactly 100 entries, the last call's entry first,
    the 100 most recent calls newest first. *)
Theorem addToHistory_prepends_and_caps :
  (forall (now : Date) (songId : ObjectId) (d : Z) (u : Doc),
      returns (addToHistory now songId d) u = true /\
      listeningHistory (exec (addToHistory now songId d) u)
        = firstn 100 (mkHistoryEntry songId now d :: listeningHistory u) /\
      hd_error (listeningHistory (exec (addToHistory now songId d) u))
        = Some (mkHistoryEntry songId now d) /\
      (List.length (listeningHistory (exec (addToHistory now songId d) u)) <= 100)%nat) /\
  (forall (u : Doc) (ps : list Play) (last : Play),
      listeningHistory u = [] ->
      List.length (ps ++ [last]) = 105%nat ->
      List.length (listeningHistory (plays (ps ++ [last]) u)) = 100%nat /\
      hd_error (listeningHistory (plays (ps ++ [last]) u)) = Some (entry_of last) /\
      listeningHistory (plays (ps ++ [last]) u)
        = firstn 100 (rev (map entry_of (ps ++ [last])))).
Proof.
  split.
  - intros now songId d u. unfold returns, result, exec.
    rewrite addToHistory_runs. cbn [fst snd listeningHistory set_listeningHistory].
    repeat split. apply firstn_le_length.
  - intros u ps last Hu Hn.
    rewrite plays_history by (rewrite Hu; simpl; lia).
    rewrite Hu, app_nil_r. split; [|split; [|reflexivity]].
    + rewrite length_firstn, length_rev, length_map, Hn. reflexivity.
    + rewrite map_app, rev_app_distr. reflexivity.
Qed.

Lemma addToHistory_prepends_and_caps_witness :
  listeningHistory newcomer = [] /\
  List.length (first_104 ++ [play_105]) = 105%nat /\
  List.length (listeningHistory (plays (first_104 ++ [play_105]) newcomer)) = 100%nat /\
  hd_error (listeningHistory (plays (first_104 ++ [play_105]) newcomer))
    = Some (entry_of play_105).
Proof.
  destruct (proj2 addToHistory_prepends_and_caps newcomer first_104 play_105
              eq_refl eq_refl) as [Hlen [Hhd _]].
  split; [reflexivity|]. split; [reflexivity|]. split; [exact Hlen|exact Hhd].
Defined.

End UserHistoryClaims.

(* ===================================================================== *)
(** * Song: one toggle, seen by the user and by the others *)
(* ===================================================================== *)

Section SongToggles.

Import Song.

Lemma set_likes_same (s : Doc) : set_likes (likes s) s = s.
Proof. now destruct s. Qed.

Lemma disliked_iff (u : ObjectId) (s : Doc) : disliked u s = true <-> In u (dislikes s).
Proof. apply existsb_eqb_In. Qed.

Lemma existsb_remove_first_other (u v : ObjectId) (l : list ObjectId) :
  v <> u -> existsb (String.eqb v) (Js.remove_first u l) = existsb (String.eqb v) l.
Proof.
  intros Hne. induction l as [|y r IH]; simpl; [reflexivity|].
  destruct (String.eqb_spec y u) as [->|Hy].
  - destruct (String.eqb_spec v u); [congruence|reflexivity].
  - simpl. now rewrite IH.
Qed.

Lemma existsb_push_other (u v : ObjectId) (l : list ObjectId) :
  v <> u -> existsb (String.eqb v) (Js.push l u) = existsb (String.eqb v) l.
Proof.
  intros Hne. unfold Js.push. rewrite existsb_app. simpl.
  destruct (String.eqb_spec v u); [congruence|]. now rewrite !orb_false_r.
Qed.

Lemma length_remove_first_nat (u : ObjectId) (l : list ObjectId) :
  In u l -> S (List.length (Js.remove_first u l)) = List.length l.
Proof.
  induction l as [|y r IH]; intros Hu; [destruct Hu|].
  cbn [Js.remove_first]. destruct (String.eqb_spec y u) as [->|Hy]; [reflexivity|].
  destruct Hu as [Hu|Hu]; [congruence|]. cbn [List.length]. now rewrite IH.
Qed.

Lemma length_remove_first (u : ObjectId) (l : list ObjectId) :
  In u l -> Js.length (Js.remove_first u l) = Js.length l - 1.
Proof.
  intros Hu. unfold Js.length. rewrite <- (length_remove_first_nat u l Hu). lia.
Qed.

Lemma length_push {A} (l : list A) (x : A) : Js.length (Js.push l x) = Js.length l + 1.
Proof. unfold Js.length, Js.push. rewrite length_app. simpl. lia. Qed.

Lemma remove_first_push_new (u : ObjectId) (l : list ObjectId) :
  ~ In u l -> Js.remove_first u (Js.push l u) = l.
Proof.
  unfold Js.push. induction l as [|y r IH]; simpl; intros Hu.
  - now rewrite String.eqb_refl.
  - destruct (String.eqb_spec y u) as [->|Hy]; [tauto|].
    f_equal. apply IH. tauto.
Qed.

Lemma disliked_false_iff (u : ObjectId) (s : Doc) :
  disliked u s = false <-> ~ In u (dislikes s).
Proof.
  rewrite <- disliked_iff. destruct (disliked u s); split; intros H; congruence.
Qed.

(** Splits on whether [u] is liked and disliked in [s], rewrites the bits
    [liked u s] and [disliked u s], and the call with the matching equation. *)
Ltac split_bits u s :=
  destruct (in_dec string_dec u (likes s)) as [Hl|Hl];
  destruct (in_dec string_dec u (dislikes s)) as [Hd|Hd];
  first [ rewrite (proj2 (liked_iff u s) Hl) | rewrite (proj2 (liked_false_iff u s) Hl) | idtac ];
  first [ rewrite (proj2 (disliked_iff u s) Hd) | rewrite (proj2 (disliked_false_iff u s) Hd) | idtac ];
  unfold exec.

Ltac split_toggle u s :=
  split_bits u s;
  first [ rewrite (toggleLike_off u s) by assumption
        | rewrite (toggleLike_switch u s) by assumption
        | rewrite (toggleLike_on u s) by assumption ];
  cbn [snd fst likes dislikes set_likes set_dislikes].

Ltac split_toggle' u s :=
  split_bits u s;
  first [ rewrite (toggleDislike_off u s) by assumption
        | rewrite (toggleDislike_switch u s) by assumption
        | rewrite (toggleDislike_on u s) by assumption ];
  cbn [snd fst likes dislikes set_likes set_dislikes].

(** X1: a toggle for one user leaves every other user liked, and disliked,
    exactly as before, whatever the arrays hold. *)
Theorem toggle_leaves_other_users :
  forall (s : Doc) (u v : ObjectId),
    v <> u ->
    (liked v (exec (Song.toggleLike u) s) = liked v s /\
     disliked v (exec (Song.toggleLike u) s) = disliked v s) /\
    (liked v (exec (Song.toggleDislike u) s) = liked v s /\
     disliked v (exec (Song.toggleDislike u) s) = disliked v s).
Proof.
  intros s u v Hne. unfold liked, disliked. split.
  - split_toggle u s;
      rewrite ?existsb_remove_first_other, ?existsb_push_other by assumption; auto.
  - split_toggle' u s;
      rewrite ?existsb_remove_first_other, ?existsb_push_other by assumption; auto.
Qed.

Lemma toggle_leaves_other_users_witness :
  "u2" <> "u1" /\
  liked "u2" (exec (Song.toggleLike "u1") sample) = liked "u2" sample /\
  disliked "u2" (exec (Song.toggleDislike "u1") sample) = disliked "u2" sample.
Proof.
  assert (H : "u2" <> "u1") by discriminate.
  destruct (toggle_leaves_other_users sample "u1" "u2" H) as [[H1 _] [_ H2]].
  split; [exact H|]. split; [exact H1|exact H2].
Defined.

(** X2: the counts the like and dislike routes answer with.  [toggleLike]
    takes one like away from a user who is liked; otherwise it adds one like
    and takes one dislike away if the user is disliked.  [toggleDislike] is
    the mirror image.  This holds whatever the arrays hold. *)
Theorem toggle_counts :
  forall (s : Doc) (u : ObjectId),
    (likeCount (exec (Song.toggleLike u) s)
       = (if liked u s then likeCount s - 1 else likeCount s + 1) /\
     dislikeCount (exec (Song.toggleLike u) s)
       = (if negb (liked u s) && disliked u s then dislikeCount s - 1 else dislikeCount s)) /\
    (dislikeCount (exec (Song.toggleDislike u) s)
       = (if disliked u s then dislikeCount s - 1 else dislikeCount s + 1) /\
     likeCount (exec (Song.toggleDislike u) s)
       = (if negb (disliked u s) && liked u s then likeCount s - 1 else likeCount s)).
Proof.
  intros s u. unfold likeCount, dislikeCount. split.
  - split_toggle u s; simpl;
      rewrite ?length_remove_first, ?length_push by assumption; auto.
  - split_toggle' u s; simpl;
      rewrite ?length_remove_first, ?length_push by assumption; auto.
Qed.

(** X3: for a user who is neither liked nor disliked, two [toggleLike]
    calls in a row, or two [toggleDislike] calls, give back the very same
    document. *)
Theorem toggle_twice_from_neutral_is_identity :
  forall (s : Doc) (u : ObjectId),
    liked u s = false -> disliked u s = false ->
    exec (Song.toggleLike u) (exec (Song.toggleLike u) s) = s /\
    exec (Song.toggleDislike u) (exec (Song.toggleDislike u) s) = s.
Proof.
  intros s u Hl Hd.
  apply liked_false_iff in Hl.
  assert (Hd' : ~ In u (dislikes s)) by (rewrite <- disliked_iff; congruence).
  split.
  - unfold exec at 2. rewrite (toggleLike_on u s Hl Hd'). cbn [snd].
    unfold exec. rewrite toggleLike_off by (apply In_push; now right).
    cbn. rewrite remove_first_push_new by assumption. now destruct s.
  - unfold exec at 2. rewrite (toggleDislike_on u s Hd' Hl). cbn [snd].
    unfold exec. rewrite toggleDislike_off by (apply In_push; now right).
    cbn. rewrite remove_first_push_new by assumption. now destruct s.
Qed.

Lemma toggle_twice_from_neutral_is_identity_witness :
  liked "u3" sample = false /\ disliked "u3" sample = false /\
  exec (Song.toggleLike "u3") (exec (Song.toggleLike "u3") sample) = sample /\
  exec (Song.toggleDislike "u3") (exec (Song.toggleDislike "u3") sample) = sample.
Proof.
  split; [reflexivity|]. split; [reflexivity|].
  exact (toggle_twice_from_neutral_is_identity sample "u3" eq_refl eq_refl).
Defined.

(** X4: on a song whose arrays list no user twice and share no user,
    [toggleLike(u)] flips whether [u] is liked and leaves [u] not disliked;
    [toggleDislike(u)] flips whether [u] is disliked and leaves [u] not
    liked. *)
Theorem toggle_switches_the_user :
  forall (s : Doc) (u : ObjectId),
    set_like s -> exclusive s ->
    (liked u (exec (Song.toggleLike u) s) = negb (liked u s) /\
     disliked u (exec (Song.toggleLike u) s) = false) /\
    (disliked u (exec (Song.toggleDislike u) s) = negb (disliked u s) /\
     liked u (exec (Song.toggleDislike u) s) = false).
Proof.
  intros s u [Nl Nd] Hex.
  assert (Gl : forall l, NoDup l -> existsb (String.eqb u) (Js.remove_first u l) = false).
  { intros l Hl. destruct (existsb _ _) eqn:He; [|reflexivity].
    apply existsb_eqb_In in He. exfalso. revert He.
    apply remove_first_gone. now apply NoDup_count_le_1. }
  assert (Gp : forall l, existsb (String.eqb u) (Js.push l u) = true).
  { intros l. apply existsb_eqb_In, In_push. now right. }
  assert (Gn : forall l, ~ In u l -> existsb (String.eqb u) l = false).
  { intros l Hl. destruct (existsb _ _) eqn:He; [|reflexivity].
    apply existsb_eqb_In in He. contradiction. }
  split.
  - split_toggle u s; unfold liked, disliked;
      cbn [likes dislikes set_likes set_dislikes];
      rewrite ?Gl, ?Gp, ?(Gn _ Hd) by assumption; simpl; auto.
    exfalso. apply (Hex u). now split.
  - split_toggle' u s; unfold liked, disliked;
      cbn [likes dislikes set_likes set_dislikes];
      rewrite ?Gl, ?Gp, ?(Gn _ Hl) by assumption; simpl; auto.
    exfalso. apply (Hex u). now split.
Qed.

Lemma toggle_switches_the_user_witness :
  set_like sample /\ exclusive sample /\
  liked "u2" (exec (Song.toggleLike "u2") sample) = negb (liked "u2" sample) /\
  disliked "u2" (exec (Song.toggleLike "u2") sample) = false.
Proof.
  destruct (toggle_switches_the_user sample "u2" sample_set_like sample_exclusive)
    as [[H1 H2] _].
  split; [exact sample_set_like|]. split; [exact sample_exclusive|].
  split; [exact H1|exact H2].
Defined.

End SongToggles.

(* ===================================================================== *)
(** * Playlist: what the membership operations keep *)
(* ===================================================================== *)

Section PlaylistInvariants.

Import Playlist.

Variable db : list Song.Doc.


Lemma edit_runs (e : Edit) (p : Doc) :
  exec (edit db e) p = p \/
  exists q, exec (edit db e) p = saved db q /\
    (songs q = songs p
     \/ (exists now s u, is_member s p = false /\
           songs q = Js.push (songs p) (mkEntry s now u (Js.plus (maxOrder (songs p)) 1)))
     \/ (exists s, songs q = filter (fun x => negb (is_song s x)) (songs p))
     \/ (exists so, songs q = Js.sort by_order (applied so (songs p)))).
Proof.
  unfold exec. destruct e as [[now s u|s]|so]; simpl.
  - destruct (is_member s p) eqn:Hm.
    + left. now rewrite addSong_member.
    + right. rewrite addSong_new by assumption. cbn [snd]. eexists. split; [reflexivity|].
      right. left. exists now, s, u. auto.
  - right. rewrite removeSong_runs. cbn [snd]. eexists. split; [reflexivity|].
    right. right. left. exists s. reflexivity.
  - right. rewrite reorderSongs_runs. cbn [snd]. eexists. split; [reflexivity|].
    right. right. right. exists so. reflexivity.
Qed.


Lemma ascending_trans : Relation_Definitions.transitive Entry ascending.
Proof. intros a b c. unfold ascending. lia. Qed.

Lemma strongly_app_one (l : list Entry) (e : Entry) :
  StronglySorted ascending l -> (forall x, In x l -> ascending x e) ->
  StronglySorted ascending (l ++ [e]).
Proof.
  induction l as [|a r IH]; simpl; intros Hs He.
  - repeat constructor.
  - inversion Hs as [|? ? Hr Ha]; subst. constructor.
    + apply IH; auto.
    + apply Forall_app. split; [assumption|]. constructor; auto.
  Qed.

Lemma strongly_filter (f : Entry -> bool) (l : list Entry) :
  StronglySorted ascending l -> StronglySorted ascending (filter f l).
Proof.
  induction l as [|a r IH]; simpl; intros Hs; [constructor|].
  inversion Hs as [|? ? Hr Ha]; subst.
  destruct (f a); [|now apply IH]. constructor; [now apply IH|].
  rewrite Forall_forall in *. intros x Hx. apply Ha. now apply filter_In in Hx.
Qed.

Lemma edit_keeps_order (e : Edit) (p : Doc) :
  Sorted ascending (songs p) -> Sorted ascending (songs (exec (edit db e) p)).
Proof.
  intros Hp. destruct (edit_runs e p) as [->|[q [-> Hq]]]; [assumption|].
  rewrite saved_songs.
  destruct Hq as [->|[[now [s [u [_ ->]]]]|[[s ->]|[so ->]]]].
  - assumption.
  - apply StronglySorted_Sorted, strongly_app_one.
    + apply Sorted_StronglySorted; [exact ascending_trans|assumption].
    + intros x Hx. unfold ascending. simpl. pose proof (maxOrder_ge _ _ Hx).
      pose proof (plus_one_ge (maxOrder (songs p))). lia.
  - apply StronglySorted_Sorted, strongly_filter.
    apply Sorted_StronglySorted; [exact ascending_trans|assumption].
  - apply sort_sorted.
Qed.

Lemma edit_keeps_distinct (e : Edit) (p : Doc) :
  distinct p -> distinct (exec (edit db e) p).
Proof.
  destruct e as [[now s u|s]|so]; simpl.
  - apply addSong_keeps_distinct.
  - apply removeSong_keeps_distinct.
  - apply reorderSongs_keeps_distinct.
Qed.

Lemma existsb_filter_out {A} (f : A -> bool) (l : list A) :
  existsb f (filter (fun x => negb (f x)) l) = false.
Proof.
  induction l as [|x r IH]; simpl; [reflexivity|].
  destruct (f x) eqn:Hx; simpl; [assumption|]. now rewrite Hx.
Qed.

Lemma filter_out_pushed {A} (f : A -> bool) (l : list A) (x : A) :
  existsb f l = false -> f x = true ->
  filter (fun y => negb (f y)) (Js.push l x) = l.
Proof.
  intros Hl Hx. unfold Js.push. rewrite filter_app. simpl. rewrite Hx. simpl.
  rewrite app_nil_r. now apply filter_out_absent.
Qed.

End PlaylistInvariants.

Section PlaylistInvariantClaims.

Import Playlist.



(** X6: along any sequence of [addSong], [removeSong] and [reorderSongs]
    calls, a playlist that lists no song twice and lists its entries in
    ascending order of their order keys stays so; a new playlist is so. *)
Theorem edits_keep_members_distinct_and_in_order :
  forall (db : list Song.Doc) (es : list Edit) (p : Doc),
    distinct p -> Sorted ascending (songs p) ->
    distinct (edits db es p) /\ Sorted ascending (songs (edits db es p)).
Proof.
  intros db es. induction es as [|e es IH]; intros p Hd Hs; [now split|].
  simpl. apply IH.
  - now apply edit_keeps_distinct.
  - now apply edit_keeps_order.
Qed.

Lemma edits_keep_members_distinct_and_in_order_witness :
  distinct three_songs /\ Sorted ascending (songs three_songs) /\
  distinct (edits one_song_db [Reorder swap_ends; Membership (Remove "S2")] three_songs) /\
  Sorted ascending
    (songs (edits one_song_db [Reorder swap_ends; Membership (Remove "S2")] three_songs)).
Proof.
  assert (Hs : Sorted ascending (songs three_songs)).
  { simpl. repeat constructor; unfold ascending; simpl; lia. }
  split; [exact three_songs_distinct|]. split; [exact Hs|].
  exact (edits_keep_members_distinct_and_in_order one_song_db _ three_songs
           three_songs_distinct Hs).
Defined.

(** X7: after [removeSong(s)] the song is not a member, whatever the list
    held, and a following [addSong(s)] goes through; and [addSong(s)] of a
    song that is not a member followed by [removeSong(s)] gives back the
    membership list as it was. *)
Theorem removeSong_removes_and_undoes_addSong :
  forall (db : list Song.Doc) (now : Date) (s u : ObjectId) (p : Doc),
    is_member s (exec (removeSong db s) p) = false /\
    returns (addSong db now s u) (exec (removeSong db s) p) = true /\
    (is_member s p = false ->
       songs (exec (removeSong db s) (exec (addSong db now s u) p)) = songs p).
Proof.
  intros db now s u p.
  assert (Hgone : is_member s (exec (removeSong db s) p) = false).
  { unfold exec, is_member. rewrite removeSong_runs. cbn [snd].
    rewrite saved_songs. cbn [songs set_songs]. apply existsb_filter_out. }
  split; [exact Hgone|]. split.
  - unfold returns, result. now rewrite addSong_new.
  - intros Hm. unfold exec. rewrite addSong_new by assumption. cbn [snd].
    rewrite removeSong_runs. cbn [snd]. rewrite !saved_songs. cbn [songs set_songs].
    rewrite ?saved_songs. cbn [songs set_songs].
    apply filter_out_pushed; [exact Hm|]. unfold is_song. simpl. apply String.eqb_refl.
Qed.

Lemma removeSong_removes_and_undoes_addSong_witness :
  is_member "s2" one_song = false /\
  songs (exec (removeSong one_song_db "s2") (exec (addSong one_song_db 2000 "s2" "u1") one_song))
    = songs one_song.
Proof.
  split; [reflexivity|].
  exact (proj2 (proj2 (removeSong_removes_and_undoes_addSong one_song_db 2000 "s2" "u1" one_song))
           eq_refl).
Defined.

End PlaylistInvariantClaims.

(* ===================================================================== *)
(** * Playlist: collaborators, and what they may do *)
(* ===================================================================== *)

Section PlaylistSharing.

Import Playlist.

Variable db : list Song.Doc.

Lemma removeCollaborator_runs (u : ObjectId) (p : Doc) :
  removeCollaborator db u p =
    let p' := saved db
                (set_collaborators (filter (fun c => negb (is_user u c)) (collaborators p)) p) in
    (Normal p', p').
Proof.
  unfold removeCollaborator, bind, modify. now rewrite save_runs.
Qed.

Lemma collaborators_after_add (now : Date) (u : ObjectId) (r : option Role) (p : Doc) :
  collaborators (exec (addCollaborator db now u r) p) =
    if is_collaborator u p
    then Js.update_first (is_user u) (set_role (role_or_default r)) (collaborators p)
    else Js.push (collaborators p) (mkCollaborator u (role_or_default r) now).
Proof.
  unfold exec. rewrite addCollaborator_runs. cbn [snd]. now rewrite saved_collaborators.
Qed.

Lemma collaborators_after_remove (u : ObjectId) (p : Doc) :
  collaborators (exec (removeCollaborator db u) p) =
    filter (fun c => negb (is_user u c)) (collaborators p).
Proof.
  unfold exec. rewrite removeCollaborator_runs. cbn [snd]. now rewrite saved_collaborators.
Qed.

Lemma map_user_update_first (f : Collaborator -> bool) (r : Role) (l : list Collaborator) :
  map user (Js.update_first f (set_role r) l) = map user l.
Proof.
  induction l as [|x t IH]; simpl; [reflexivity|].
  destruct (f x); simpl; [reflexivity|now rewrite IH].
Qed.

Lemma not_collaborator_not_listed (u : ObjectId) (l : list Collaborator) :
  existsb (is_user u) l = false -> ~ In u (map user l).
Proof.
  induction l as [|x t IH]; simpl; [tauto|].
  unfold is_user at 1. destruct (String.eqb_spec (user x) u) as [He|He]; simpl.
  - discriminate.
  - intros H [Hx|Hx]; [congruence|]. now apply IH.
Qed.

Lemma filter_keeps_one_each (f : Collaborator -> bool) (l : list Collaborator) :
  NoDup (map user l) -> NoDup (map user (filter f l)).
Proof.
  induction l as [|x t IH]; simpl; intros Hnd; [constructor|].
  inversion Hnd as [|? ? Hx Ht]; subst.
  destruct (f x); simpl; [|now apply IH].
  constructor; [|now apply IH].
  intros Hin. apply Hx. apply in_map_iff in Hin. destruct Hin as [y [Hy Hin]].
  apply filter_In in Hin. apply in_map_iff. exists y. tauto.
Qed.

Lemma sharing_keeps_one_each (c : Sharing) (p : Doc) :
  one_entry_each p -> one_entry_each (exec (sharing db c) p).
Proof.
  unfold one_entry_each. intros Hp. destruct c as [now u r|u]; simpl.
  - rewrite collaborators_after_add. destruct (is_collaborator u p) eqn:Hc.
    + now rewrite map_user_update_first.
    + unfold Js.push. rewrite map_app. simpl.
      apply NoDup_app; [assumption|repeat constructor; intros []|].
      intros a Ha [<-|[]]. revert Ha. now apply not_collaborator_not_listed.
  - rewrite collaborators_after_remove. now apply filter_keeps_one_each.
Qed.

Lemma update_first_other (u : ObjectId) (r : Role) (c : Collaborator) (l : list Collaborator) :
  user c <> u ->
  (In c (Js.update_first (is_user u) (set_role r) l) <-> In c l).
Proof.
  intros Hc. induction l as [|x t IH]; simpl; [tauto|].
  unfold is_user at 1. destruct (String.eqb_spec (user x) u) as [He|He]; simpl.
  - split; intros [H|H]; auto.
    + subst c. simpl in Hc. congruence.
    + subst c. congruence.
  - rewrite IH. tauto.
Qed.

Lemma canView_runs (u : ObjectId) (p : Doc) :
  canView (Some u) p = (Normal (JBool (canView_value u p)), p).
Proof.
  unfold canView, canView_value, bind at 1, get.
  destruct (isPublic p); [reflexivity|]. simpl orb.
  unfold bind at 1, toString, ret.
  destruct (String.eqb (createdBy p) u); [reflexivity|]. simpl orb.
  unfold bind. rewrite findM_same_user. unfold is_collaborator.
  destruct (find (is_user u) (collaborators p)) eqn:Hf.
  - destruct (existsb (is_user u) (collaborators p)) eqn:He; [reflexivity|].
    apply find_none_existsb in He. congruence.
  - apply find_none_existsb in Hf. now rewrite Hf.
Qed.

(** The permission checks once [addCollaborator] has run. *)
Lemma checks_after_addCollaborator :
  forall (db0 : list Song.Doc) (now : Date) (u : ObjectId) (r : option Role) (p : Doc),
    u <> createdBy p ->
    result (canView (Some u)) (exec (addCollaborator db0 now u r) p) = Normal (JBool true) /\
    result (canEdit (Some u)) (exec (addCollaborator db0 now u r) p)
      = Normal (JBool (isCollaborative p && Role_eqb (role_or_default r) editor)).
Proof.
  intros db0 now u r p Hne.
  destruct (addCollaborator_upserts db0 now u r p) as [c [Hf [Hr Hu]]].
  assert (Hflags : isCollaborative (exec (addCollaborator db0 now u r) p) = isCollaborative p /\
                   createdBy (exec (addCollaborator db0 now u r) p) = createdBy p).
  { unfold exec. rewrite addCollaborator_runs. cbn [snd]. unfold saved.
    destruct (Js.length _ >? 0); auto. }
  destruct Hflags as [Hco Hcr].
  unfold result. rewrite canView_runs, canEdit_runs. cbn [fst].
  unfold canView_value, canEdit_value, is_collaborator. rewrite Hco, Hcr, Hf, Hr.
  assert (Hex : existsb (is_user u) (collaborators (exec (addCollaborator db0 now u r) p)) = true).
  { destruct (existsb _ _) eqn:He; [reflexivity|]. apply find_none_existsb in He. congruence. }
  rewrite Hex. split.
  - now rewrite orb_true_r.
  - destruct (String.eqb_spec (createdBy p) u); [congruence|].
    now destruct (isCollaborative p).
Qed.

End PlaylistSharing.

Section PlaylistSharingClaims.

Import Playlist.

(** X8: along any sequence of [addCollaborator] and [removeCollaborator]
    calls, a playlist in which no user has two collaborator entries stays
    so; a new playlist is so. *)
Theorem sharings_keep_one_entry_each :
  forall (db : list Song.Doc) (cs : list Sharing) (p : Doc),
    one_entry_each p -> one_entry_each (sharings db cs p).
Proof.
  intros db cs. induction cs as [|c cs IH]; intros p Hp; [assumption|].
  simpl. apply IH. now apply sharing_keeps_one_each.
Qed.

Lemma sharings_keep_one_entry_each_witness :
  one_entry_each fresh /\
  one_entry_each
    (sharings one_song_db
       [Share 1000 "u2" None; Share 1001 "u2" (Some viewer); Unshare "u3"; Share 1002 "u1" None]
       fresh).
Proof.
  assert (H : one_entry_each fresh) by constructor.
  split; [exact H|]. exact (sharings_keep_one_entry_each one_song_db _ fresh H).
Defined.

(** X9: [addCollaborator(u, role)] lists the same users as before, in the
    same order, with [u] added at the end if [u] was not listed; and every
    entry of another user is still there, unchanged. *)
Theorem addCollaborator_adds_no_one_else :
  forall (db : list Song.Doc) (now : Date) (u : ObjectId) (r : option Role) (p : Doc),
    map user (collaborators (exec (addCollaborator db now u r) p))
      = (if is_collaborator u p
         then map user (collaborators p)
         else map user (collaborators p) ++ [u]) /\
    (forall c, user c <> u ->
       (In c (collaborators (exec (addCollaborator db now u r) p)) <-> In c (collaborators p))).
Proof.
  intros db now u r p. rewrite collaborators_after_add.
  destruct (is_collaborator u p); split.
  - apply map_user_update_first.
  - intros c Hc. now apply update_first_other.
  - unfold Js.push. now rewrite map_app.
  - intros c Hc. unfold Js.push. rewrite in_app_iff. simpl. split; [|tauto].
    intros [H|[H|[]]]; [assumption|]. subst c. simpl in Hc. congruence.
Qed.

Lemma addCollaborator_adds_no_one_else_witness :
  user (mkCollaborator "u3" editor 1001) <> "u2" /\
  In (mkCollaborator "u3" editor 1001) (collaborators private_shared) /\
  In (mkCollaborator "u3" editor 1001)
     (collaborators (exec (addCollaborator one_song_db 2000 "u2" (Some editor)) private_shared)).
Proof.
  assert (H : user (mkCollaborator "u3" editor 1001) <> "u2") by discriminate.
  assert (Hin : In (mkCollaborator "u3" editor 1001) (collaborators private_shared))
    by (simpl; right; left; reflexivity).
  split; [exact H|]. split; [exact Hin|].
  exact (proj2 (proj2 (addCollaborator_adds_no_one_else one_song_db 2000 "u2" (Some editor)
                         private_shared) _ H) Hin).
Defined.

(** X10: once [addCollaborator(u, role)] has run for a user other than the
    owner, [canView(u)] is true, and [canEdit(u)] is true exactly when the
    role is ['editor'] (given or by default) and the playlist is
    collaborative: an editor of a playlist that is not collaborative may
    not edit it. *)
Theorem addCollaborator_grants_by_role :
  forall (db : list Song.Doc) (now : Date) (u : ObjectId) (r : option Role) (p : Doc),
    u <> createdBy p ->
    result (canView (Some u)) (exec (addCollaborator db now u r) p) = Normal (JBool true) /\
    result (canEdit (Some u)) (exec (addCollaborator db now u r) p)
      = Normal (JBool (isCollaborative p && Role_eqb (role_or_default r) editor)).
Proof.
  intros db now u r p Hne. now apply checks_after_addCollaborator.
Qed.

Lemma addCollaborator_grants_by_role_witness :
  "u2" <> createdBy private_shared /\
  result (canView (Some "u2"))
         (exec (addCollaborator one_song_db 2000 "u2" (Some editor)) private_shared)
    = Normal (JBool true) /\
  result (canEdit (Some "u2"))
         (exec (addCollaborator one_song_db 2000 "u2" (Some editor)) private_shared)
    = Normal (JBool (isCollaborative private_shared && Role_eqb (role_or_default (Some editor)) editor)).
Proof.
  assert (H : "u2" <> createdBy private_shared) by discriminate.
  split; [exact H|].
  exact (addCollaborator_grants_by_role one_song_db 2000 "u2" (Some editor) private_shared H).
Defined.

(** X11: after [removeCollaborator(u)] the user has no collaborator entry,
    whatever the list held, and the entries of the other users are as
    before; a user other than the owner then can view the playlist only if
    it is public and cannot edit it; and [addCollaborator(u, role)] for a
    user without entry followed by [removeCollaborator(u)] gives back the
    collaborator list as it was. *)
Theorem removeCollaborator_revokes :
  forall (db : list Song.Doc) (now : Date) (u : ObjectId) (r : option Role) (p : Doc),
    is_collaborator u (exec (removeCollaborator db u) p) = false /\
    (forall c, user c <> u ->
       (In c (collaborators (exec (removeCollaborator db u) p)) <-> In c (collaborators p))) /\
    (u <> createdBy p ->
       result (canView (Some u)) (exec (removeCollaborator db u) p)
         = Normal (JBool (isPublic p)) /\
       exists v, result (canEdit (Some u)) (exec (removeCollaborator db u) p) = Normal v /\
                 ToBoolean v = false) /\
    (is_collaborator u p = false ->
       collaborators (exec (removeCollaborator db u) (exec (addCollaborator db now u r) p))
         = collaborators p).
Proof.
  intros db now u r p.
  assert (Hgone : is_collaborator u (exec (removeCollaborator db u) p) = false).
  { unfold is_collaborator. rewrite collaborators_after_remove. apply existsb_filter_out. }
  split; [exact Hgone|]. split; [|split].
  - intros c Hc. rewrite collaborators_after_remove, filter_In.
    unfold is_user. destruct (String.eqb_spec (user c) u); [congruence|]. simpl. tauto.
  - intros Hne.
    assert (Hflags : isPublic (exec (removeCollaborator db u) p) = isPublic p /\
                     createdBy (exec (removeCollaborator db u) p) = createdBy p).
    { unfold exec. rewrite removeCollaborator_runs. cbn [snd]. unfold saved.
      destruct (Js.length _ >? 0); auto. }
    destruct Hflags as [Hpu Hcr].
    unfold result. rewrite canView_runs, canEdit_runs. cbn [fst].
    unfold canView_value, canEdit_value. rewrite Hgone, Hpu, Hcr.
    unfold is_collaborator in Hgone. rewrite (proj2 (find_none_existsb _ _) Hgone).
    destruct (String.eqb_spec (createdBy p) u); [congruence|]. split.
    + now rewrite !orb_false_r.
    + destruct (isCollaborative _); simpl; eauto.
  - intros Hc. rewrite collaborators_after_remove, collaborators_after_add, Hc.
    apply filter_out_pushed; [exact Hc|]. unfold is_user. simpl. apply String.eqb_refl.
Qed.

Lemma removeCollaborator_revokes_witness :
  "u2" <> createdBy private_shared /\
  is_collaborator "u9" private_shared = false /\
  result (canView (Some "u2")) (exec (removeCollaborator one_song_db "u2") private_shared)
    = Normal (JBool (isPublic private_shared)) /\
  collaborators (exec (removeCollaborator one_song_db "u9")
                   (exec (addCollaborator one_song_db 2000 "u9" None) private_shared))
    = collaborators private_shared.
Proof.
  assert (H : "u2" <> createdBy private_shared) by discriminate.
  destruct (removeCollaborator_revokes one_song_db 2000 "u2" None private_shared)
    as [_ [_ [Hperm _]]].
  destruct (removeCollaborator_revokes one_song_db 2000 "u9" None private_shared)
    as [_ [_ [_ Hundo]]].
  split; [exact H|]. split; [reflexivity|]. split.
  - exact (proj1 (Hperm H)).
  - exact (Hundo eq_refl).
Defined.

(** X12: for a user who is logged in, [canView] returns the boolean that is
    true exactly for a public playlist, the owner, or a user with a
    collaborator entry of any role; whoever [canEdit] lets edit, [canView]
    lets view; and neither call changes the document, also for an absent
    user id, where they throw. *)
Theorem canView_value_and_canEdit_implies_canView :
  forall (p : Doc) (u : ObjectId),
    result (canView (Some u)) p
      = Normal (JBool (isPublic p || String.eqb (createdBy p) u || is_collaborator u p)) /\
    (forall v, result (canEdit (Some u)) p = Normal v -> ToBoolean v = true ->
               result (canView (Some u)) p = Normal (JBool true)) /\
    (forall uid : option ObjectId, exec (canEdit uid) p = p /\ exec (canView uid) p = p).
Proof.
  intros p u. unfold result, exec. rewrite canView_runs. cbn [fst].
  split; [reflexivity|]. split.
  - intros v. rewrite canEdit_runs. cbn [fst]. intros Hv Ht. injection Hv as <-.
    unfold canEdit_value in Ht. unfold canView_value.
    destruct (String.eqb (createdBy p) u); [now rewrite orb_true_r|].
    destruct (isCollaborative p); simpl in Ht; [|discriminate].
    unfold is_collaborator.
    destruct (find (is_user u) (collaborators p)) eqn:Hf; [|discriminate].
    destruct (existsb (is_user u) (collaborators p)) eqn:He; [now rewrite orb_true_r|].
    apply find_none_existsb in He. congruence.
  - intros [uid|].
    + now rewrite canEdit_runs, canView_runs.
    + rewrite canEdit_anonymous, canView_anonymous. now destruct (isPublic p).
Qed.

Lemma canView_value_and_canEdit_implies_canView_witness :
  result (canEdit (Some "u3")) private_shared = Normal (JBool true) /\
  ToBoolean (JBool true) = true /\
  result (canView (Some "u3")) private_shared = Normal (JBool true).
Proof.
  assert (H : result (canEdit (Some "u3")) private_shared = Normal (JBool true))
    by reflexivity.
  split; [exact H|]. split; [reflexivity|].
  exact (proj1 (proj2 (canView_value_and_canEdit_implies_canView private_shared "u3"))
           (JBool true) H eq_refl).
Defined.

End PlaylistSharingClaims.

(* ===================================================================== *)
(** * Playlist: likes, followers and plays *)
(* ===================================================================== *)

Section PlaylistSocial.

Import Playlist.

Variable db : list Song.Doc.

Lemma preSave_runs (p : Doc) : preSave db p = (Normal tt, saved db p).
Proof.
  unfold preSave, bind, get, modify, saved, member_durations.
  destruct (Js.length (songs p) >? 0); reflexivity.
Qed.

Lemma saveFull_runs (f : Full) :
  saveFull db f = let f' := set_core (saved db (core f)) f in (Normal f', f').
Proof.
  unfold saveFull, bind, on_core. now rewrite preSave_runs.
Qed.




Lemma incrementPlayCount_runs (now : Date) (f : Full) :
  incrementPlayCount db now f =
    let f' := set_core (saved db (core f))
                (set_lastPlayed (Some now) (set_playCount (playCount f + 1) f)) in
    (Normal f', f').
Proof.
  unfold incrementPlayCount, bind, modify. now rewrite saveFull_runs.
Qed.



End PlaylistSocial.

Section PlaylistSocialClaims.

Import Playlist.



End PlaylistSocialClaims.

(* ===================================================================== *)
(** * Routes: the handlers around the playlist methods *)
(* ===================================================================== *)

Section PlaylistRoutes.

Import Playlist Routes.

Variable db : list Song.Doc.

Lemma postSong_runs (now : Date) (u s : ObjectId) (p : Doc) :
  postSong db now u s p =
    if negb (may_edit u p) then
      (Normal (Json 403 false "You do not have permission to edit this playlist"), p)
    else
      match Song.findById db s with
      | None => (Normal (Json 404 false "Song not found"), p)
      | Some _ =>
          if is_member s p
          then (Normal (Json 500 false "Song already exists in playlist"), p)
          else (Normal (Json 200 true "Song added to playlist successfully"),
                exec (addSong db now s u) p)
      end.
Proof.
  unfold postSong, try_catch, bind at 1, may_edit. rewrite canEdit_runs.
  destruct (negb (ToBoolean (canEdit_value u p))); [reflexivity|].
  destruct (Song.findById db s); [|reflexivity].
  unfold bind, exec. destruct (is_member s p) eqn:Hm.
  - now rewrite addSong_member.
  - now rewrite addSong_new.
Qed.

Lemma deleteSong_runs (u s : ObjectId) (p : Doc) :
  deleteSong db u s p =
    if negb (may_edit u p) then
      (Normal (Json 403 false "You do not have permission to edit this playlist"), p)
    else
      (Normal (Json 200 true "Song removed from playlist successfully"),
       exec (removeSong db s) p).
Proof.
  unfold deleteSong, try_catch, bind at 1, may_edit. rewrite canEdit_runs.
  destruct (negb (ToBoolean (canEdit_value u p))); [reflexivity|].
  unfold bind, exec. now rewrite removeSong_runs.
Qed.

Lemma on_core_canView_user (u : ObjectId) (f : Full) :
  on_core (canView (Some u)) f = (Normal (JBool (canView_value u (core f))), f).
Proof.
  unfold on_core. rewrite canView_runs. now destruct f.
Qed.

Lemma on_core_canView_anonymous (f : Full) :
  on_core (canView None) f =
    if isPublic (core f) then (Normal (JBool true), f) else (Throw undefined_toString, f).
Proof.
  unfold on_core. rewrite canView_anonymous.
  destruct (isPublic (core f)); now destruct f.
Qed.

End PlaylistRoutes.

Section PlaylistRouteClaims.

Import Playlist Routes.

(** X14: [POST /playlists/:id/songs] by a logged-in user answers 403 when
    [canEdit] does not let the user edit, else 404 when the song is not in
    the collection, else 500 with the text [Song already exists in
    playlist] when the song is a member, else 200; and the playlist is
    changed, by [addSong], only when the answer is 200. *)
Theorem postSong_answers :
  forall (db : list Song.Doc) (now : Date) (u s : ObjectId) (p : Doc),
    result (postSong db now u s) p =
      Normal
        (if negb (may_edit u p) then
           Json 403 false "You do not have permission to edit this playlist"
         else
           match Song.findById db s with
           | None => Json 404 false "Song not found"
           | Some _ =>
               if is_member s p
               then Json 500 false "Song already exists in playlist"
               else Json 200 true "Song added to playlist successfully"
           end) /\
    exec (postSong db now u s) p =
      (if may_edit u p
          && match Song.findById db s with Some _ => true | None => false end
          && negb (is_member s p)
       then exec (addSong db now s u) p
       else p).
Proof.
  intros db now u s p. unfold result, exec at 1. rewrite postSong_runs.
  destruct (may_edit u p); simpl; [|auto].
  destruct (Song.findById db s); simpl; [|auto].
  destruct (is_member s p); simpl; auto.
Qed.

(** X15: [DELETE /playlists/:id/songs/:songId] by a logged-in user answers
    403 and leaves the playlist alone when [canEdit] does not let the user
    edit; otherwise it answers 200, also when the song was not in the
    playlist, and the song is not a member afterwards. *)
Theorem deleteSong_answers :
  forall (db : list Song.Doc) (u s : ObjectId) (p : Doc),
    (may_edit u p = false ->
       result (deleteSong db u s) p
         = Normal (Json 403 false "You do not have permission to edit this playlist") /\
       exec (deleteSong db u s) p = p) /\
    (may_edit u p = true ->
       result (deleteSong db u s) p
         = Normal (Json 200 true "Song removed from playlist successfully") /\
       is_member s (exec (deleteSong db u s) p) = false /\
       (is_member s p = false -> songs (exec (deleteSong db u s) p) = songs p)).
Proof.
  intros db u s p. unfold result, exec. rewrite deleteSong_runs.
  split; intros Hm; rewrite Hm; simpl.
  - auto.
  - split; [reflexivity|]. unfold exec. rewrite removeSong_runs. cbn [snd].
    unfold is_member. rewrite saved_songs. cbn [songs set_songs]. split.
    + apply existsb_filter_out.
    + intros Ha. now apply filter_out_absent.
Qed.

Lemma deleteSong_answers_witness :
  may_edit "u2" private_shared = false /\
  may_edit "u3" private_shared = true /\
  is_member "s9" private_shared = false /\
  exec (deleteSong one_song_db "u2" "s9") private_shared = private_shared /\
  result (deleteSong one_song_db "u3" "s9") private_shared
    = Normal (Json 200 true "Song removed from playlist successfully") /\
  songs (exec (deleteSong one_song_db "u3" "s9") private_shared) = songs private_shared.
Proof.
  destruct (deleteSong_answers one_song_db "u2" "s9" private_shared) as [Hno _].
  destruct (deleteSong_answers one_song_db "u3" "s9" private_shared) as [_ Hyes].
  split; [reflexivity|]. split; [reflexivity|]. split; [reflexivity|].
  split; [exact (proj2 (Hno eq_refl))|].
  destruct (Hyes eq_refl) as [Hr [_ Hs]].
  split; [exact Hr|exact (Hs eq_refl)].
Defined.

(** X16: on a collaborative playlist, let [b] be a user other than the
    owner and [s] a song of the collection that is not a member.  Once the
    owner has made [b] a viewer, [b]'s [POST .../songs] answers 403 and
    changes nothing; once the owner has made [b] an editor, it answers 200
    and the song is the last entry, added by [b], with as order key the
    largest there was plus one in double precision, which is one above it
    when that was a safe integer. *)
Theorem viewer_refused_editor_adds :
  forall (db : list Song.Doc) (t now : Date) (b s : ObjectId) (d : Song.Doc) (p : Doc),
    isCollaborative p = true -> b <> createdBy p ->
    Song.findById db s = Some d -> is_member s p = false ->
    (let p1 := exec (addCollaborator db t b (Some viewer)) p in
     result (postSong db now b s) p1
       = Normal (Json 403 false "You do not have permission to edit this playlist") /\
     exec (postSong db now b s) p1 = p1) /\
    (let p2 := exec (addCollaborator db t b (Some editor)) p in
     result (postSong db now b s) p2
       = Normal (Json 200 true "Song added to playlist successfully") /\
     songs (exec (postSong db now b s) p2)
       = songs p ++ [mkEntry s now b (Js.plus (maxOrder (songs p)) 1)] /\
     (Z.abs (maxOrder (songs p)) <= Js.MAX_SAFE_INTEGER ->
        songs (exec (postSong db now b s) p2)
          = songs p ++ [mkEntry s now b (maxOrder (songs p) + 1)])).
Proof.
  intros db t now b s d p Hco Hne Hd Hm.
  assert (Hsongs : forall r, songs (exec (addCollaborator db t b r) p) = songs p).
  { intros r. unfold exec. rewrite addCollaborator_runs. cbn [snd]. now rewrite saved_songs. }
  assert (Hedit : forall r, may_edit b (exec (addCollaborator db t b r) p)
                            = Role_eqb (role_or_default r) editor).
  { intros r. unfold may_edit.
    pose proof (proj2 (checks_after_addCollaborator db t b r p Hne)) as H.
    unfold result in H. rewrite canEdit_runs in H. cbn [fst] in H.
    injection H as ->. now rewrite Hco. }
  assert (Hmem : forall r, is_member s (exec (addCollaborator db t b r) p) = false).
  { intros r. unfold is_member. now rewrite Hsongs. }
  split.
  - set (p1 := exec (addCollaborator db t b (Some viewer)) p).
    assert (E : may_edit b p1 = false) by (subst p1; now rewrite Hedit).
    cbv zeta. unfold result, exec. rewrite postSong_runs, E. simpl. auto.
  - set (p2 := exec (addCollaborator db t b (Some editor)) p).
    assert (E : may_edit b p2 = true) by (subst p2; now rewrite Hedit).
    assert (M : is_member s p2 = false) by (subst p2; apply Hmem).
    assert (Hadded : songs (exec (postSong db now b s) p2)
                     = songs p ++ [mkEntry s now b (Js.plus (maxOrder (songs p)) 1)]).
    { unfold exec. rewrite postSong_runs, E, Hd, M. simpl.
      unfold exec. rewrite addSong_new by exact M. cbn [snd].
      rewrite saved_songs. cbn [songs set_songs]. subst p2. now rewrite Hsongs. }
    cbv zeta. split; [|split].
    + unfold result. now rewrite postSong_runs, E, Hd, M.
    + exact Hadded.
    + intros Hsafe. rewrite Hadded. now rewrite (plus_one_safe _ Hsafe).
Qed.

Lemma viewer_refused_editor_adds_witness :
  isCollaborative private_shared = true /\ "u7" <> createdBy private_shared /\
  Song.findById one_song_db "s1" = Some (Song.mkDoc "s1" 180 0 [] []) /\
  is_member "s1" private_shared = false /\
  Z.abs (maxOrder (songs private_shared)) <= Js.MAX_SAFE_INTEGER /\
  result (postSong one_song_db 3000 "u7" "s1")
         (exec (addCollaborator one_song_db 2000 "u7" (Some viewer)) private_shared)
    = Normal (Json 403 false "You do not have permission to edit this playlist") /\
  songs (exec (postSong one_song_db 3000 "u7" "s1")
           (exec (addCollaborator one_song_db 2000 "u7" (Some editor)) private_shared))
    = songs private_shared ++ [mkEntry "s1" 3000 "u7" (maxOrder (songs private_shared) + 1)].
Proof.
  assert (H : "u7" <> createdBy private_shared) by discriminate.
  assert (Hsafe : Z.abs (maxOrder (songs private_shared)) <= Js.MAX_SAFE_INTEGER)
    by (vm_compute; discriminate).
  destruct (viewer_refused_editor_adds one_song_db 2000 3000 "u7" "s1"
              (Song.mkDoc "s1" 180 0 [] []) private_shared eq_refl H eq_refl eq_refl)
    as [[Hv _] [_ [_ He]]].
  split; [reflexivity|]. split; [exact H|]. split; [reflexivity|]. split; [reflexivity|].
  split; [exact Hsafe|]. split; [exact Hv|exact (He Hsafe)].
Defined.

(** X17: [POST /playlists/:id/play] answers 200 and counts the play, once,
    with the clock reading as [lastPlayed], exactly when [canView] returns
    true; a logged-in user who may not view gets 403, and a visitor who is
    not logged in gets 500 on a private playlist, where [canView] throws;
    in both cases the document is left alone.  Likes and followers never
    change. *)
Theorem postPlay_answers :
  forall (db : list Song.Doc) (now : Date) (f : Full),
    (forall u : ObjectId,
        result (postPlay db now (Some u)) f
          = Normal (if canView_value u (core f)
                    then Json 200 true "Playlist started"
                    else Json 403 false "You do not have permission to play this playlist") /\
        (if canView_value u (core f)
         then playCount (exec (postPlay db now (Some u)) f) = playCount f + 1 /\
              lastPlayed (exec (postPlay db now (Some u)) f) = Some now
         else exec (postPlay db now (Some u)) f = f)) /\
    (result (postPlay db now None) f
       = Normal (if isPublic (core f)
                 then Json 200 true "Playlist started"
                 else Json 500 false "Error playing playlist") /\
     (if isPublic (core f)
      then playCount (exec (postPlay db now None) f) = playCount f + 1 /\
           lastPlayed (exec (postPlay db now None) f) = Some now
      else exec (postPlay db now None) f = f)) /\
    (forall uid : option ObjectId,
        likes (exec (postPlay db now uid) f) = likes f /\
        followers (exec (postPlay db now uid) f) = followers f).
Proof.
  intros db now f.
  assert (Hu : forall u, postPlay db now (Some u) f =
             if canView_value u (core f)
             then (Normal (Json 200 true "Playlist started"),
                   exec (incrementPlayCount db now) f)
             else (Normal (Json 403 false "You do not have permission to play this playlist"), f)).
  { intros u. unfold postPlay, try_catch, bind at 1. rewrite on_core_canView_user.
    destruct (canView_value u (core f)); simpl; [|reflexivity].
    unfold bind, exec. now rewrite incrementPlayCount_runs. }
  assert (Ha : postPlay db now None f =
             if isPublic (core f)
             then (Normal (Json 200 true "Playlist started"),
                   exec (incrementPlayCount db now) f)
             else (Normal (Json 500 false "Error playing playlist"), f)).
  { unfold postPlay, try_catch, bind at 1. rewrite on_core_canView_anonymous.
    destruct (isPublic (core f)); simpl; [|reflexivity].
    unfold bind, exec. now rewrite incrementPlayCount_runs. }
  assert (Hinc : playCount (exec (incrementPlayCount db now) f) = playCount f + 1 /\
                 lastPlayed (exec (incrementPlayCount db now) f) = Some now /\
                 likes (exec (incrementPlayCount db now) f) = likes f /\
                 followers (exec (incrementPlayCount db now) f) = followers f).
  { unfold exec. rewrite incrementPlayCount_runs. cbn. auto. }
  destruct Hinc as [H1 [H2 [H3 H4]]].
  split; [|split].
  - intros u. unfold result, exec at 1 2 3. rewrite Hu.
    destruct (canView_value u (core f)); simpl; auto.
  - unfold result, exec at 1 2 3. rewrite Ha.
    destruct (isPublic (core f)); simpl; auto.
  - intros [u|]; unfold exec at 1 2.
    + rewrite Hu. destruct (canView_value u (core f)); simpl; auto.
    + rewrite Ha. destruct (isPublic (core f)); simpl; auto.
Qed.

End PlaylistRouteClaims.

(* ===================================================================== *)
(** * The stream route, the premium gates and the badges *)
(* ===================================================================== *)

Section AccountFacts.

Import User.

Lemma addBadge_holder (now : Date) (n d i : string) (a : Account) :
  has_badge n a = true -> addBadge now n d i a = (Normal a, a).
Proof.
  intros Hb. unfold addBadge, bind, get.
  destruct (find_some_existsb _ _ Hb) as [b [-> _]]. reflexivity.
Qed.

Lemma addBadge_first (now : Date) (n d i : string) (a : Account) :
  has_badge n a = false ->
  addBadge now n d i a =
    let a' := set_badges (Js.push (badges a) (mkBadge n d now i)) a in (Normal a', a').
Proof.
  intros Hb. unfold addBadge, bind, get, modify, saveAccount.
  now rewrite (proj2 (find_none_existsb _ _) Hb).
Qed.

Lemma has_badge_after (now : Date) (n d i : string) (a : Account) :
  has_badge n (exec (addBadge now n d i) a) = true.
Proof.
  unfold exec. destruct (has_badge n a) eqn:Hb.
  - now rewrite addBadge_holder.
  - rewrite addBadge_first by assumption. cbn. unfold has_badge, Js.push. cbn.
    rewrite existsb_app. simpl. unfold is_badge at 2. simpl.
    rewrite String.eqb_refl. now rewrite orb_true_r.
Qed.

Lemma no_badge_not_named (n : string) (l : list Badge) :
  existsb (is_badge n) l = false -> ~ In n (map name l).
Proof.
  induction l as [|x t IH]; simpl; [tauto|].
  unfold is_badge at 1. destruct (String.eqb_spec (name x) n) as [He|He]; simpl.
  - discriminate.
  - intros H [Hx|Hx]; [congruence|]. now apply IH.
Qed.

End AccountFacts.

Section AccountClaims.

Import User.

(** X18: after [addBadge(name, ...)] the user has a badge of that name; a
    user who had one is left exactly as before, so the first award stands
    and a second call with any description changes nothing; a user who had
    none gets the new badge at the end of the list; and a badge list with no
    name twice stays so. *)
Theorem addBadge_awards_once :
  forall (now : Date) (n d i : string) (a : Account),
    has_badge n (exec (addBadge now n d i) a) = true /\
    (has_badge n a = true -> exec (addBadge now n d i) a = a) /\
    (has_badge n a = false ->
       badges (exec (addBadge now n d i) a) = badges a ++ [mkBadge n d now i]) /\
    (forall (now' : Date) (d' i' : string),
        exec (addBadge now' n d' i') (exec (addBadge now n d i) a)
          = exec (addBadge now n d i) a) /\
    (NoDup (map name (badges a)) ->
       NoDup (map name (badges (exec (addBadge now n d i) a)))).
Proof.
  intros now n d i a. split; [apply has_badge_after|]. split; [|split; [|split]].
  - intros Hb. unfold exec. now rewrite addBadge_holder.
  - intros Hb. unfold exec. now rewrite addBadge_first.
  - intros now' d' i'. unfold exec at 1.
    rewrite addBadge_holder; [reflexivity|apply has_badge_after].
  - intros Hnd. unfold exec. destruct (has_badge n a) eqn:Hb.
    + now rewrite addBadge_holder.
    + rewrite addBadge_first by assumption. cbn. unfold Js.push. rewrite map_app. simpl.
      apply NoDup_app; [assumption|repeat constructor; intros []|].
      intros x Hx [<-|[]]. revert Hx. now apply no_badge_not_named.
Qed.

Lemma addBadge_awards_once_witness :
  has_badge "Early Bird" subscriber = true /\
  has_badge "Night Owl" subscriber = false /\
  NoDup (map name (badges subscriber)) /\
  exec (addBadge 99 "Early Bird" "again" "x.png") subscriber = subscriber /\
  badges (exec (addBadge 99 "Night Owl" "Plays after midnight" "owl.png") subscriber)
    = badges subscriber ++ [mkBadge "Night Owl" "Plays after midnight" 99 "owl.png"] /\
  NoDup (map name (badges (exec (addBadge 99 "Night Owl" "Plays after midnight" "owl.png")
                                subscriber))).
Proof.
  assert (Hnd : NoDup (map name (badges subscriber))).
  { simpl. repeat constructor. intros []. }
  destruct (addBadge_awards_once 99 "Early Bird" "again" "x.png" subscriber)
    as [_ [Hsame _]].
  destruct (addBadge_awards_once 99 "Night Owl" "Plays after midnight" "owl.png" subscriber)
    as [_ [_ [Hnew [_ Hkeep]]]].
  split; [reflexivity|]. split; [reflexivity|]. split; [exact Hnd|].
  split; [exact (Hsame eq_refl)|]. split; [exact (Hnew eq_refl)|exact (Hkeep Hnd)].
Defined.

End AccountClaims.

Section GateClaims.

Import Auth.

(** X19: of [requireAuth] and [requireGuest] exactly one lets a request
    through; [requireAdmin] and [requirePremium] let through only requests
    that [requireAuth] lets through, and they send a visitor who is not
    logged in to [/] and to [/auth/login]; [requireAdmin] lets through
    exactly the requests for which [checkAdmin] sets [isAdmin] to true, and
    [requirePremium] exactly those for which [checkPremium] sets a truthy
    [isPremium]. *)
Theorem gates_nest_and_agree_with_checks :
  forall req : Request,
    passes (requireGuest req) = negb (passes (requireAuth req)) /\
    (passes (requireAdmin req) = true -> passes (requireAuth req) = true) /\
    (passes (requirePremium req) = true -> passes (requireAuth req) = true) /\
    (passes (requireAuth req) = false ->
       requireAdmin req = Redirect (Some "Admin access required") "/" /\
       requirePremium req = Redirect (Some "Please log in to access this page") "/auth/login") /\
    passes (requireAdmin req) = checkAdmin req /\
    passes (requirePremium req) = ToBoolean (checkPremium req).
Proof.
  intros req.
  unfold requireGuest, requireAuth, requireAdmin, requirePremium, checkAdmin, checkPremium.
  destruct (sessionUser req) as [u|]; simpl.
  - repeat split; try discriminate.
    + now destruct (User.Role_eqb (role u) User.admin).
    + now destruct (ToBoolean (premium_value u)).
  - repeat split; discriminate.
Qed.

Lemma gates_nest_and_agree_with_checks_witness :
  passes (requireAdmin (login "u1" (User.mkAccount User.newcomer
            (User.mkSubscription User.pro true) User.admin []))) = true /\
  passes (requireAuth (login "u1" (User.mkAccount User.newcomer
            (User.mkSubscription User.pro true) User.admin []))) = true /\
  passes (requireAuth anonymous) = false /\
  requirePremium anonymous = Redirect (Some "Please log in to access this page") "/auth/login".
Proof.
  destruct (gates_nest_and_agree_with_checks
              (login "u1" (User.mkAccount User.newcomer
                 (User.mkSubscription User.pro true) User.admin [])))
    as [_ [Hadmin _]].
  destruct (gates_nest_and_agree_with_checks anonymous) as [_ [_ [_ [Hanon _]]]].
  split; [reflexivity|]. split; [exact (Hadmin eq_refl)|].
  split; [reflexivity|]. exact (proj2 (Hanon eq_refl)).
Defined.

(** X20: for the session that login writes for an account, [requirePremium]
    lets the request through, and [checkPremium] sets a truthy [isPremium],
    exactly when the account's [hasPremiumAccess()] is true; a logged-in
    user without it is sent to [/subscription]. *)
Theorem premium_gate_agrees_with_hasPremiumAccess :
  forall (userId : ObjectId) (a : User.Account),
    passes (requirePremium (login userId a)) = User.hasPremiumAccess a /\
    checkPremium (login userId a) = JBool (User.hasPremiumAccess a) /\
    (User.hasPremiumAccess a = false ->
       requirePremium (login userId a)
         = Redirect (Some "Premium subscription required for this feature") "/subscription").
Proof.
  intros userId a.
  unfold requirePremium, checkPremium, login, sessionUser, premium_value,
         User.hasPremiumAccess. simpl.
  destruct (User.Plan_eqb (User.type (User.subscription a)) User.free); simpl.
  - repeat split.
  - destruct (User.isActive (User.subscription a)); simpl; repeat split. discriminate.
Qed.

Lemma premium_gate_agrees_with_hasPremiumAccess_witness :
  User.hasPremiumAccess (User.mkAccount User.newcomer
     (User.mkSubscription User.premium false) User.user []) = false /\
  requirePremium (login "u1" (User.mkAccount User.newcomer
     (User.mkSubscription User.premium false) User.user []))
    = Redirect (Some "Premium subscription required for this feature") "/subscription".
Proof.
  split; [reflexivity|].
  exact (proj2 (proj2 (premium_gate_agrees_with_hasPremiumAccess "u1"
           (User.mkAccount User.newcomer (User.mkSubscription User.premium false)
              User.user []))) eq_refl).
Defined.

End GateClaims.

Section StreamRoute.

Import Routes.

Variable path_join : list string -> string.
Variable __dirname : string.

Lemma stream_runs (now : Date) (req : Auth.Request) (t : Track) (u : option User.Doc) :
  stream path_join __dirname now req (t, u) =
    if isPremium t && negb (ToBoolean (Auth.checkPremium req))
    then (Normal (Json 403 false "Premium subscription required"), (t, u))
    else
      match Auth.session req with
      | None => (Normal (Json 500 false "Error streaming song"),
                 (set_doc (exec Song.incrementPlayCount (doc t)) t, u))
      | Some s => (Normal (SendFile (path_join [__dirname; ".."; filePath t])),
                   streamed now s t u)
      end.
Proof.
  unfold stream, try_catch, bind at 1, get. cbn [fst snd].
  destruct (isPremium t && negb (ToBoolean (Auth.checkPremium req))); [reflexivity|].
  unfold bind at 1, modify. cbn [fst snd].
  destruct (Auth.session req) as [s|]; [|reflexivity].
  unfold streamed. destruct (Auth.user s) as [su|]; [|reflexivity].
  destruct u as [usr|]; reflexivity.
Qed.

End StreamRoute.

Section StreamRouteClaims.

Import Routes.

(** X21: [GET /songs/:id/stream] answers 403 for a premium song when
    [checkPremium] left no truthy [isPremium], as it does for every visitor
    who is not logged in, and then neither the song nor the user document
    changes.  Otherwise the song's play count is one higher, with its likes
    and dislikes as before.  On a request with a session object the handler
    then sends the file at [path.join(__dirname, '..', song.filePath)], and
    the user document of a logged-in user has the song first in its
    history, with the clock reading and the song's full duration, and at
    most 100 entries, while without a logged-in user no history is written;
    on a request without a session object it answers 500, the play being
    counted all the same. *)
Theorem stream_gates_counts_and_records :
  forall (path_join : list string -> string) (__dirname : string)
         (now : Date) (req : Auth.Request) (t : Track) (u : option User.Doc),
    (isPremium t = true -> ToBoolean (Auth.checkPremium req) = false ->
       result (stream path_join __dirname now req) (t, u)
         = Normal (Json 403 false "Premium subscription required") /\
       exec (stream path_join __dirname now req) (t, u) = (t, u)) /\
    (isPremium t = true ->
       result (stream path_join __dirname now Auth.anonymous) (t, u)
         = Normal (Json 403 false "Premium subscription required")) /\
    (isPremium t && negb (ToBoolean (Auth.checkPremium req)) = false ->
       Song.playCount (doc (fst (exec (stream path_join __dirname now req) (t, u))))
         = Song.playCount (doc t) + 1 /\
       Song.likes (doc (fst (exec (stream path_join __dirname now req) (t, u))))
         = Song.likes (doc t) /\
       Song.dislikes (doc (fst (exec (stream path_join __dirname now req) (t, u))))
         = Song.dislikes (doc t) /\
       (Auth.session req = None ->
          result (stream path_join __dirname now req) (t, u)
            = Normal (Json 500 false "Error streaming song") /\
          snd (exec (stream path_join __dirname now req) (t, u)) = u) /\
       (forall s, Auth.session req = Some s ->
          result (stream path_join __dirname now req) (t, u)
            = Normal (SendFile (path_join [__dirname; ".."; filePath t])) /\
          (Auth.user s = None ->
             snd (exec (stream path_join __dirname now req) (t, u)) = u) /\
          (forall su usr, Auth.user s = Some su -> u = Some usr ->
             exists usr',
               snd (exec (stream path_join __dirname now req) (t, u)) = Some usr' /\
               User.listeningHistory usr'
                 = firstn 100
                     (User.mkHistoryEntry (Song._id (doc t)) now (Song.duration (doc t))
                        :: User.listeningHistory usr)))).
Proof.
  intros path_join __dirname now req t u. split; [|split].
  - intros Hp Hc. unfold result, exec. rewrite stream_runs, Hp, Hc. simpl. auto.
  - intros Hp. unfold result. rewrite stream_runs, Hp. reflexivity.
  - intros Hg. unfold result, exec. rewrite stream_runs, Hg.
    destruct (Auth.session req) as [s|]; cbn [fst snd]; unfold streamed; cbn [fst snd].
    + split; [reflexivity|]. split; [reflexivity|]. split; [reflexivity|].
      split; [discriminate|]. intros s' Hs'. injection Hs' as <-.
      split; [reflexivity|]. split.
      * intros Hn. now rewrite Hn.
      * intros su usr Hsu ->. rewrite Hsu. eexists. split; [reflexivity|].
        unfold exec. now rewrite addToHistory_runs.
    + split; [reflexivity|]. split; [reflexivity|]. split; [reflexivity|].
      split; [auto|]. intros s' Hs'. discriminate Hs'.
Qed.

Lemma stream_gates_counts_and_records_witness :
  isPremium premium_track = true /\
  ToBoolean (Auth.checkPremium Auth.anonymous) = false /\
  exec (stream (String.concat "/") "/srv/app/routes" 5000 Auth.anonymous) (premium_track, None)
    = (premium_track, None) /\
  isPremium premium_track
    && negb (ToBoolean (Auth.checkPremium (Auth.login "u1" User.subscriber))) = false /\
  Auth.session (Auth.mkRequest None) = None /\
  Auth.session (Auth.login "u1" User.subscriber)
    = Some (Auth.mkSession (Some (Auth.mkSessionUser "u1" User.user
              (Some (User.mkSubscription User.premium true))))) /\
  Song.playCount
    (doc (fst (exec (stream (String.concat "/") "/srv/app/routes" 5000
                       (Auth.login "u1" User.subscriber))
                 (premium_track, Some User.newcomer))))
    = Song.playCount (doc premium_track) + 1 /\
  result (stream (String.concat "/") "/srv/app/routes" 5000
            (Auth.login "u1" User.subscriber)) (premium_track, Some User.newcomer)
    = Normal (SendFile (String.concat "/"
                ["/srv/app/routes"; ".."; filePath premium_track])) /\
  result (stream (String.concat "/") "/srv/app/routes" 5000 (Auth.mkRequest None))
         (free_track, None)
    = Normal (Json 500 false "Error streaming song").
Proof.
  destruct (stream_gates_counts_and_records (String.concat "/") "/srv/app/routes" 5000
              Auth.anonymous premium_track None) as [Hgate _].
  destruct (stream_gates_counts_and_records (String.concat "/") "/srv/app/routes" 5000
              (Auth.login "u1" User.subscriber) premium_track (Some User.newcomer))
    as [_ [_ Hserve]].
  destruct (stream_gates_counts_and_records (String.concat "/") "/srv/app/routes" 5000
              (Auth.mkRequest None) free_track None)
    as [_ [_ Hnone]].
  split; [reflexivity|]. split; [reflexivity|].
  split; [exact (proj2 (Hgate eq_refl eq_refl))|].
  split; [reflexivity|]. split; [reflexivity|]. split; [reflexivity|].
  destruct (Hserve eq_refl) as [Hcount [_ [_ [_ Hsent]]]].
  split; [exact Hcount|]. split.
  - exact (proj1 (Hsent _ eq_refl)).
  - destruct (Hnone eq_refl) as [_ [_ [_ [H500 _]]]]. exact (proj1 (H500 eq_refl)).
Defined.

End StreamRouteClaims.
